(** * panel-simple-dsi: command-sequence parser, transmitter and panel life cycle

    A shallow embedding of [drivers/gpu/drm/panel/panel-simple-dsi.c].
    Buffers are lists of bytes, pointers into a buffer are byte offsets,
    C integers are [Z] with the wrap-around of [unsigned int] written out,
    and the hardware the driver talks to (power rail, GPIO lines, DSI host,
    sleeps, kernel log) is an explicit [world] threaded through every call. *)

From Stdlib Require Import ZArith List Lia Bool.
From Stdlib.Strings Require Import Byte.
Import ListNotations.
Local Open Scope Z_scope.

(** ** Machine integers and errno values *)

Definition u8 : Type := byte.

Definition u8_to_Z (b : u8) : Z := Z.of_N (Byte.to_N b).

Definition UINT_MODULUS : Z := 2 ^ 32.
Definition INT_MAX : Z := 2 ^ 31 - 1.

(** Conversion to [unsigned int]: arithmetic on [len] wraps modulo 2^32. *)
Definition to_uint (z : Z) : Z := z mod UINT_MODULUS.

(** Conversion to [int] of an unsigned or wider value (an [unsigned int]
    that is returned as [int], an [ssize_t] that is stored in an [int]):
    the low 32 bits, read as two's complement. *)
Definition to_int (z : Z) : Z :=
  if to_uint z >? INT_MAX then to_uint z - UINT_MODULUS else to_uint z.

Definition EINVAL : Z := 22.
Definition ENOMEM : Z := 12.

(** ** Data model *)

(** [struct cmd_ctrl_hdr], packed: three bytes. *)
Record cmd_ctrl_hdr := mk_hdr {
  dtype : u8;   (* data type *)
  wait : u8;    (* ms *)
  dlen : u8     (* payload len *)
}.

Definition sizeof_dchdr : Z := 3.

(** [struct cmd_desc]: [payload] points into the owning buffer; the pointer
    is kept as the byte offset from the start of that buffer. *)
Record cmd_desc := mk_cmd_desc {
  dchdr : cmd_ctrl_hdr;
  payload : Z
}.

(** [struct panel_cmds]. A NULL [cmds] array is the empty list. *)
Record panel_cmds := mk_panel_cmds {
  buf : list u8;
  blen : Z;
  cmds : list cmd_desc;
  cmd_cnt : Z
}.

(** Messages the driver writes with [dev_err]. *)
Inductive log_msg :=
| LogParseLen (dlen : Z)                 (* "%s: error, len=%d" *)
| LogParseTrailer (b0 : u8) (blen : Z)   (* "%s: dcs_cmd=%x len=%d error!" *)
| LogWriteFailed (err : Z)               (* "failed to write dcs cmd: %d" *)
| LogSupplyFailed (err : Z)              (* "failed to enable supply: %d" *)
| LogOffCmdsFailed                       (* "failed to send off cmds" *)
| LogOnCmdsFailed.                       (* "failed to send on cmds" *)

(** ** Memory reads

    A read at an offset outside the allocation has no defined result; the
    model reports it instead of inventing a value. *)
Definition read_u8 (b : list u8) (off : Z) : option u8 :=
  if off <? 0 then None else nth_error b (Z.to_nat off).

(** [*dchdr] for [dchdr = (struct cmd_ctrl_hdr * )bp]: a three-byte copy. *)
Definition read_hdr (b : list u8) (bp : Z) : option cmd_ctrl_hdr :=
  match read_u8 b bp, read_u8 b (bp + 1), read_u8 b (bp + 2) with
  | Some t, Some w, Some l => Some (mk_hdr t w l)
  | _, _, _ => None
  end.

(** Outcome of the two allocations of the parser ([kmemdup], [kcalloc]),
    which belong to the kernel and are taken as given. *)
Record allocator := mk_allocator {
  kmemdup_fails : bool;
  kcalloc_fails : bool
}.

(** ** [panel_simple_parse_cmds] *)

(** How the scanning loop ("scan init commands") is left. *)
Inductive scan_result :=
| ScanEnd (len : Z) (cnt : Z)     (* loop condition false *)
| ScanBadLen (dl : Z)             (* [dchdr->dlen > len]: return -EINVAL *)
| ScanFault (off : Z).            (* [dchdr->dlen] read outside [buf] *)

(** The [while (len > sizeof( *dchdr))] loop. [fuel] bounds the number of
    iterations; [None] means the bound was too small (see
    [scan_cmds_fuel]: the bound the parser passes always suffices). *)
Fixpoint scan_cmds (fuel : nat) (b : list u8) (bp len cnt : Z)
  {struct fuel} : option scan_result :=
  if len >? sizeof_dchdr then
    match fuel with
    | O => None
    | S fuel' =>
        match read_u8 b (bp + 2) with
        | None => Some (ScanFault (bp + 2))
        | Some d =>
            if u8_to_Z d >? len then Some (ScanBadLen (u8_to_Z d))
            else
              let bp1 := bp + sizeof_dchdr in
              let len1 := to_uint (len - sizeof_dchdr) in
              let bp2 := bp1 + u8_to_Z d in
              let len2 := to_uint (len1 - u8_to_Z d) in
              scan_cmds fuel' b bp2 len2 (cnt + 1)
        end
    end
  else Some (ScanEnd len cnt).

(** The [for (i = 0; i < cnt; i++)] loop that fills [pcmds->cmds]; [n] is
    the number of iterations left. [inr off] is a header read outside
    [buf] at offset [off]. *)
Fixpoint fill_cmds (n : nat) (b : list u8) (bp len : Z)
  : list cmd_desc + Z :=
  match n with
  | O => inl []
  | S n' =>
      match read_hdr b bp with
      | None => inr bp
      | Some h =>
          let len1 := to_uint (len - sizeof_dchdr) in
          let bp1 := bp + sizeof_dchdr in
          let c := mk_cmd_desc h bp1 in
          let bp2 := bp1 + u8_to_Z (dlen h) in
          let len2 := to_uint (len1 - u8_to_Z (dlen h)) in
          match fill_cmds n' b bp2 len2 with
          | inl cs => inl (c :: cs)
          | inr off => inr off
          end
      end
  end.

(** What a call of the parser amounts to: it returns [ret], leaving
    [*pcmds] as [pcmds] and having logged [log]; or it reads outside the
    buffer it allocated. *)
Inductive parse_result :=
| Returned (ret : Z) (pcmds : option panel_cmds) (log : list log_msg)
| Faulted (off : Z).

(** [data] holds the [blen] bytes the caller passes ([blen_arg] below); [pcmds] is [None] for
    a NULL pointer. The outer [option] is [None] only if a loop bound were
    exceeded, which [panel_simple_parse_cmds_total] excludes. *)
Definition panel_simple_parse_cmds (mm : allocator) (data : list u8)
  (pcmds : option panel_cmds) : option parse_result :=
  let blen_arg := Z.of_nat (length data) in
  match pcmds with
  | None => Some (Returned (- EINVAL) None [])
  | Some pc =>
      if kmemdup_fails mm then Some (Returned (- ENOMEM) pcmds [])
      else
        let b := data in                      (* buf = kmemdup(data, blen) *)
        match scan_cmds (S (length b)) b 0 (to_uint blen_arg) 0 with
        | None => None
        | Some (ScanFault off) => Some (Faulted off)
        | Some (ScanBadLen dl) =>
            Some (Returned (- EINVAL) pcmds [LogParseLen dl])
        | Some (ScanEnd len cnt) =>
            if negb (len =? 0) then
              match read_u8 b 0 with
              | None => Some (Faulted 0)
              | Some b0 =>
                  Some (Returned (- EINVAL) pcmds [LogParseTrailer b0 blen_arg])
              end
            else if kcalloc_fails mm then
              Some (Returned (- ENOMEM)
                      (Some (mk_panel_cmds (buf pc) (blen pc) [] (cmd_cnt pc)))
                      [])
            else
              match fill_cmds (Z.to_nat cnt) b 0 (to_uint blen_arg) with
              | inr off => Some (Faulted off)
              | inl cs => Some (Returned 0 (Some (mk_panel_cmds b blen_arg cs cnt)) [])
              end
        end
  end.

(** The bytes a command's [payload] pointer designates: [dlen] bytes of the
    owning buffer from offset [payload] on. *)
Definition cmd_payload (pc : panel_cmds) (c : cmd_desc) : list u8 :=
  firstn (Z.to_nat (u8_to_Z (dlen (dchdr c))))
         (skipn (Z.to_nat (payload c)) (buf pc)).

(** The entries [cmds[0]] .. [cmds[cmd_cnt - 1]] a loop over the
    sequence visits. *)
Definition cmd_seq (pc : panel_cmds) : list cmd_desc :=
  firstn (Z.to_nat (cmd_cnt pc)) (cmds pc).

(** Bytes one parsed command takes in the buffer: header plus payload. *)
Definition record_size (c : cmd_desc) : Z :=
  sizeof_dchdr + u8_to_Z (dlen (dchdr c)).

Definition total_size (cs : list cmd_desc) : Z :=
  fold_right Z.add 0 (map record_size cs).

(** ** The wire format, as an encoder *)

(** One record of the command stream: type tag, wait and payload bytes. *)
Record command := mk_command {
  c_type : u8;
  c_wait : u8;
  c_payload : list u8
}.

Definition u8_of_Z (z : Z) : u8 :=
  match Byte.of_N (Z.to_N z) with
  | Some b => b
  | None => x00
  end.

(** Modelled from the spec: the board-supplied buffer is not produced by
    code of the driver; its layout is the wire format of the external
    interfaces section (byte 0 type tag, byte 1 wait, byte 2 payload length
    N, then N payload bytes, repeated). *)
Definition serialize_cmd (c : command) : list u8 :=
  c_type c :: c_wait c :: u8_of_Z (Z.of_nat (length (c_payload c)))
    :: c_payload c.

Definition serialize (cs : list command) : list u8 :=
  flat_map serialize_cmd cs.

(** The commands a parsed sequence stands for. *)
Definition command_of (pc : panel_cmds) (c : cmd_desc) : command :=
  mk_command (dtype (dchdr c)) (wait (dchdr c)) (cmd_payload pc c).

Definition commands_of (pc : panel_cmds) : list command :=
  map (command_of pc) (cmd_seq pc).

(** The payload length of a command can be written in the one length byte
    of its header. *)
Definition fits (c : command) : Prop := (length (c_payload c) <= 255)%nat.

(** The last command of a list, if there is one, carries at least one
    payload byte. *)
Fixpoint last_has_payload (cs : list command) : Prop :=
  match cs with
  | [] => True
  | [c] => c_payload c <> []
  | _ :: cs' => last_has_payload cs'
  end.

(** ** The hardware seen by the driver *)

Inductive gpio_line := EnableGpio | ResetGpio.

Inductive write_class := GenericWrite | DcsWrite.

(** What the driver does to the outside, in the order it does it. *)
Inductive event :=
| EvMsleep (msecs : Z)
| EvUsleepRange (min max : Z)
| EvDsiWrite (k : write_class) (data : list u8) (len : Z) (ret : Z)
| EvGpioOutput (line : gpio_line) (value : Z)
| EvRegulatorEnable (ret : Z)
| EvRegulatorDisable (ret : Z)
| EvLog (msg : log_msg).

(** Modelled from the spec: the power-rail handle ("exposing
    enable/disable/is-enabled"; the regulator framework is not part of the
    sources). The rail is on or off; [enable_err] and [disable_err] are what
    the next enable or disable request returns, a negative value being a
    failure that leaves the rail as it was; is-enabled answers 1 for a rail
    that is on and 0 for one that is off. *)
Record regulator := mk_regulator {
  rail_on : bool;
  enable_err : Z;
  disable_err : Z
}.

(** The world: the rail, the DSI host (the value, an [ssize_t], it returns
    to the n-th write it receives, n counted from 0) and the events so
    far. *)
Record world := mk_world {
  supply : regulator;
  dsi_host : nat -> Z;
  trace : list event
}.

Definition is_dsi_write (e : event) : bool :=
  match e with EvDsiWrite _ _ _ _ => true | _ => false end.

Definition dsi_writes (tr : list event) : list event := filter is_dsi_write tr.

(** State passing over the world. *)
Definition M (A : Type) : Type := world -> A * world.

Definition ret {A} (a : A) : M A := fun w => (a, w).

Definition bind {A B} (c : M A) (k : A -> M B) : M B :=
  fun w => let (a, w1) := c w in k a w1.

Notation "x <- c ;; k" := (bind c (fun x => k))
  (at level 61, c at next level, right associativity).
Notation "c ;;; k" := (bind c (fun _ => k))
  (at level 61, right associativity).

Definition when (b : bool) (c : M unit) : M unit :=
  if b then c else ret tt.

Definition emit (e : event) : M unit :=
  fun w => (tt, mk_world (supply w) (dsi_host w) (trace w ++ [e])).

Definition dev_err (m : log_msg) : M unit := emit (EvLog m).

Definition regulator_is_enabled : M Z :=
  fun w => (if rail_on (supply w) then 1 else 0, w).

Definition regulator_enable : M Z :=
  fun w =>
    let r := supply w in
    let e := enable_err r in
    if e <? 0 then
      (e, mk_world r (dsi_host w) (trace w ++ [EvRegulatorEnable e]))
    else
      (0, mk_world (mk_regulator true (enable_err r) (disable_err r))
            (dsi_host w) (trace w ++ [EvRegulatorEnable 0])).

Definition regulator_disable : M Z :=
  fun w =>
    let r := supply w in
    let e := disable_err r in
    if e <? 0 then
      (e, mk_world r (dsi_host w) (trace w ++ [EvRegulatorDisable e]))
    else
      (0, mk_world (mk_regulator false (enable_err r) (disable_err r))
            (dsi_host w) (trace w ++ [EvRegulatorDisable 0])).

Definition gpiod_direction_output (line : gpio_line) (value : Z) : M unit :=
  emit (EvGpioOutput line value).

(** A write of class [k] on the DSI channel: the host answers the n-th
    write it receives with [dsi_host n]. *)
Definition mipi_dsi_write (k : write_class) (data : list u8) (len : Z) : M Z :=
  fun w =>
    let r := dsi_host w (length (dsi_writes (trace w))) in
    (r, mk_world (supply w) (dsi_host w) (trace w ++ [EvDsiWrite k data len r])).

Definition mipi_dsi_generic_write : list u8 -> Z -> M Z :=
  mipi_dsi_write GenericWrite.

Definition mipi_dsi_dcs_write_buffer : list u8 -> Z -> M Z :=
  mipi_dsi_write DcsWrite.

(** C's [!x] on an [int]. *)
Definition lnot (x : Z) : Z := if x =? 0 then 1 else 0.

Definition msleep (msecs : Z) : M unit := emit (EvMsleep msecs).

Definition usleep_range (min max : Z) : M unit := emit (EvUsleepRange min max).

(** ** [panel_simple_sleep]

    [msec] is an [unsigned int], and so are the two products. *)
Definition panel_simple_sleep (msec : Z) : M unit :=
  if msec >? 20 then msleep msec
  else usleep_range (to_uint (msec * 1000)) (to_uint ((msec + 1) * 1000)).

(** ** [panel_simple_dsi_send_cmds] *)

(** Modelled from the spec: the data-type codes named in the [switch] are
    macros of [video/mipi_display.h], which is not among the sources; the
    values are those of the MIPI DSI standard, and [0xFF], the spec's
    example of an unknown type, is none of them. *)
Definition MIPI_DSI_GENERIC_SHORT_WRITE_0_PARAM : Z := 0x03.
Definition MIPI_DSI_GENERIC_SHORT_WRITE_1_PARAM : Z := 0x13.
Definition MIPI_DSI_GENERIC_SHORT_WRITE_2_PARAM : Z := 0x23.
Definition MIPI_DSI_GENERIC_LONG_WRITE : Z := 0x29.
Definition MIPI_DSI_DCS_SHORT_WRITE : Z := 0x05.
Definition MIPI_DSI_DCS_SHORT_WRITE_PARAM : Z := 0x15.
Definition MIPI_DSI_DCS_LONG_WRITE : Z := 0x39.

(** The [switch (cmd->dchdr.dtype)]: [None] is the [default] branch. *)
Definition classify (t : Z) : option write_class :=
  if (t =? MIPI_DSI_GENERIC_SHORT_WRITE_0_PARAM)
     || (t =? MIPI_DSI_GENERIC_SHORT_WRITE_1_PARAM)
     || (t =? MIPI_DSI_GENERIC_SHORT_WRITE_2_PARAM)
     || (t =? MIPI_DSI_GENERIC_LONG_WRITE)
  then Some GenericWrite
  else if (t =? MIPI_DSI_DCS_SHORT_WRITE)
          || (t =? MIPI_DSI_DCS_SHORT_WRITE_PARAM)
          || (t =? MIPI_DSI_DCS_LONG_WRITE)
  then Some DcsWrite
  else None.

Definition cmd_class (c : cmd_desc) : option write_class :=
  classify (u8_to_Z (dtype (dchdr c))).

(** The body of the [for] loop, over the entries still to visit. The
    result of the write is stored in [int err]. *)
Fixpoint send_loop (pc : panel_cmds) (cs : list cmd_desc) : M Z :=
  match cs with
  | [] => ret 0
  | cmd :: rest =>
      match cmd_class cmd with
      | None => ret (- EINVAL)
      | Some k =>
          written <- match k with
                     | GenericWrite =>
                         mipi_dsi_generic_write (cmd_payload pc cmd)
                           (u8_to_Z (dlen (dchdr cmd)))
                     | DcsWrite =>
                         mipi_dsi_dcs_write_buffer (cmd_payload pc cmd)
                           (u8_to_Z (dlen (dchdr cmd)))
                     end ;;
          let err := to_int written in
          when (err <? 0) (dev_err (LogWriteFailed err)) ;;;
          when (negb (u8_to_Z (wait (dchdr cmd)) =? 0))
               (panel_simple_sleep (u8_to_Z (wait (dchdr cmd)))) ;;;
          send_loop pc rest
      end
  end.

(** ** The panel *)

(** [struct panel_desc], the [delay] member (milliseconds); the mode and
    size members play no part in the life cycle. *)
Record panel_desc := mk_panel_desc {
  delay_reset : Z;
  delay_init : Z;
  delay_prepare : Z;
  delay_enable : Z;
  delay_disable : Z;
  delay_unprepare : Z
}.

(** [struct panel_simple]. Handles are kept as "is not NULL"; the rail
    behind [supply] lives in the world. *)
Record panel_simple := mk_panel_simple {
  dsi : bool;
  prepared : bool;
  enabled : bool;
  power_invert : bool;
  desc : option panel_desc;
  enable_gpio : bool;
  reset_gpio : bool;
  on_cmds : option panel_cmds;
  off_cmds : option panel_cmds;
  reset_level : Z
}.

Definition set_prepared (b : bool) (p : panel_simple) : panel_simple :=
  mk_panel_simple (dsi p) b (enabled p) (power_invert p) (desc p)
    (enable_gpio p) (reset_gpio p) (on_cmds p) (off_cmds p) (reset_level p).

Definition set_enabled (b : bool) (p : panel_simple) : panel_simple :=
  mk_panel_simple (dsi p) (prepared p) b (power_invert p) (desc p)
    (enable_gpio p) (reset_gpio p) (on_cmds p) (off_cmds p) (reset_level p).

Definition panel_simple_dsi_send_cmds (panel : panel_simple)
  (cmds : option panel_cmds) : M Z :=
  match cmds with
  | None => ret (- EINVAL)
  | Some pc => send_loop pc (cmd_seq pc)
  end.

(** [if (p->desc && p->desc->delay.X) panel_simple_sleep(p->desc->delay.X)] *)
Definition delay_sleep (p : panel_simple) (field : panel_desc -> Z) : M unit :=
  match desc p with
  | Some d => when (negb (field d =? 0)) (panel_simple_sleep (field d))
  | None => ret tt
  end.

Definition panel_simple_regulator_enable (p : panel_simple) : M Z :=
  if power_invert p then
    en <- regulator_is_enabled ;;
    when (en >? 0) (regulator_disable ;;; ret tt) ;;;
    ret 0
  else
    err <- regulator_enable ;;
    if err <? 0 then
      dev_err (LogSupplyFailed err) ;;;
      ret err
    else ret err.

Definition panel_simple_regulator_disable (p : panel_simple) : M Z :=
  if power_invert p then
    en <- regulator_is_enabled ;;
    if en =? 0 then
      err <- regulator_enable ;;
      if err <? 0 then
        dev_err (LogSupplyFailed err) ;;;
        ret err
      else ret err
    else ret 0
  else
    regulator_disable ;;;
    ret 0.

Definition panel_simple_disable (p : panel_simple) : M (Z * panel_simple) :=
  if negb (enabled p) then ret (0, p)
  else
    delay_sleep p delay_disable ;;;
    ret (0, set_enabled false p).

Definition panel_simple_unprepare (p : panel_simple) : M (Z * panel_simple) :=
  if negb (prepared p) then ret (0, p)
  else
    match off_cmds p with
    | Some oc =>
        err <- (if dsi p then panel_simple_dsi_send_cmds p (Some oc)
                else ret 0) ;;
        when (negb (err =? 0)) (dev_err LogOffCmdsFailed)
    | None => ret tt
    end ;;;
    when (reset_gpio p)
         (gpiod_direction_output ResetGpio (lnot (reset_level p))) ;;;
    when (enable_gpio p) (gpiod_direction_output EnableGpio 0) ;;;
    panel_simple_regulator_disable p ;;;
    delay_sleep p delay_unprepare ;;;
    ret (0, set_prepared false p).

Definition panel_simple_prepare (p : panel_simple) : M (Z * panel_simple) :=
  if prepared p then ret (0, p)
  else
    err <- panel_simple_regulator_enable p ;;
    if err <? 0 then
      dev_err (LogSupplyFailed err) ;;;
      ret (err, p)
    else
      when (enable_gpio p) (gpiod_direction_output EnableGpio 1) ;;;
      delay_sleep p delay_prepare ;;;
      when (reset_gpio p)
           (gpiod_direction_output ResetGpio (lnot (reset_level p))) ;;;
      delay_sleep p delay_reset ;;;
      when (reset_gpio p)
           (gpiod_direction_output ResetGpio (reset_level p)) ;;;
      delay_sleep p delay_init ;;;
      ret (0, set_prepared true p).

Definition panel_simple_enable (p : panel_simple) : M (Z * panel_simple) :=
  if enabled p then ret (0, p)
  else
    delay_sleep p delay_enable ;;;
    err <- match on_cmds p with
           | Some oc =>
               err <- (if dsi p then panel_simple_dsi_send_cmds p (Some oc)
                       else ret 0) ;;
               when (negb (err =? 0)) (dev_err LogOnCmdsFailed) ;;;
               ret err
           | None => ret 0
           end ;;
    ret (err, set_enabled true p).

(** ** Sequences of life-cycle calls *)

(** The four entries of [panel_simple_funcs] that change the state. *)
Inductive call := Prepare | Enable | Disable | Unprepare.

Definition run_call (c : call) (p : panel_simple) : M (Z * panel_simple) :=
  match c with
  | Prepare => panel_simple_prepare p
  | Enable => panel_simple_enable p
  | Disable => panel_simple_disable p
  | Unprepare => panel_simple_unprepare p
  end.

(** The calls one after the other, return values dropped. *)
Fixpoint run_calls (cs : list call) (p : panel_simple) (w : world)
  : panel_simple * world :=
  match cs with
  | [] => (p, w)
  | c :: cs' =>
      let '(_, p1, w1) := run_call c p w in
      run_calls cs' p1 w1
  end.

(** The order in which the display framework issues the calls: it enables
    a panel only while it is prepared and unprepares it only while it is
    not enabled (as [panel_simple_remove] does: disable, then unprepare). *)
Definition in_order (c : call) (p : panel_simple) : bool :=
  match c with
  | Enable => prepared p
  | Unprepare => negb (enabled p)
  | Prepare | Disable => true
  end.

Fixpoint calls_in_order (cs : list call) (p : panel_simple) (w : world)
  : bool :=
  match cs with
  | [] => true
  | c :: cs' =>
      in_order c p &&
      let '(_, p1, w1) := run_call c p w in
      calls_in_order cs' p1 w1
  end.

(** "Enabled implies Prepared" *)
Definition enabled_implies_prepared (p : panel_simple) : Prop :=
  enabled p = true -> prepared p = true.

(** The flags as [panel_simple_probe] leaves them. *)
Definition probed (p : panel_simple) : Prop :=
  enabled p = false /\ prepared p = false.

(** ** Reading a trace *)

(** The event of one [panel_simple_sleep]. *)
Definition sleep_event (msec : Z) : event :=
  if msec >? 20 then EvMsleep msec
  else EvUsleepRange (to_uint (msec * 1000)) (to_uint ((msec + 1) * 1000)).

(** A write as the DSI host receives it: class, payload bytes, length. *)
Definition dsi_msg : Type := write_class * list u8 * Z.

(** The writes handed to the DSI host, oldest first. *)
Definition dsi_sent (tr : list event) : list dsi_msg :=
  flat_map (fun e => match e with
                     | EvDsiWrite k data len _ => [(k, data, len)]
                     | _ => []
                     end) tr.

(** The sleeps, oldest first. *)
Definition sleeps (tr : list event) : list event :=
  filter (fun e => match e with
                   | EvMsleep _ | EvUsleepRange _ _ => true
                   | _ => false
                   end) tr.

(** The error codes reported as "failed to write dcs cmd". *)
Definition write_failures (tr : list event) : list Z :=
  flat_map (fun e => match e with
                     | EvLog (LogWriteFailed err) => [err]
                     | _ => []
                     end) tr.

(** The events of the GPIO lines. *)
Definition gpio_events (tr : list event) : list event :=
  filter (fun e => match e with EvGpioOutput _ _ => true | _ => false end) tr.

(** What transmitting the commands [cs] hands to the host: one write per
    command of a recognized type. *)
Definition transmission (pc : panel_cmds) (c : cmd_desc) : list dsi_msg :=
  match cmd_class c with
  | Some k => [(k, cmd_payload pc c, u8_to_Z (dlen (dchdr c)))]
  | None => []
  end.

Definition transmissions (pc : panel_cmds) (cs : list cmd_desc)
  : list dsi_msg :=
  flat_map (transmission pc) cs.

(** The sleeps the [wait] bytes of [cs] ask for. *)
Definition waits (cs : list cmd_desc) : list event :=
  flat_map (fun c => let ms := u8_to_Z (wait (dchdr c)) in
                     if ms =? 0 then [] else [sleep_event ms]) cs.

(** The events of one pass of the sending loop for a command of class [k]
    whose write the host answers with [r]: the write, the failure line if
    [r] is negative as an [int], the sleep if the wait is not 0. *)
Definition cmd_events (pc : panel_cmds) (c : cmd_desc) (k : write_class)
  (r : Z) : list event :=
  EvDsiWrite k (cmd_payload pc c) (u8_to_Z (dlen (dchdr c))) r
    :: (if to_int r <? 0 then [EvLog (LogWriteFailed (to_int r))] else [])
    ++ (if u8_to_Z (wait (dchdr c)) =? 0 then []
        else [sleep_event (u8_to_Z (wait (dchdr c)))]).

(** The events of the sending loop over [cs] when the host has already
    received [n] writes: it stops at the first unrecognized type. *)
Fixpoint send_events (pc : panel_cmds) (host : nat -> Z) (n : nat)
  (cs : list cmd_desc) : list event :=
  match cs with
  | [] => []
  | c :: rest =>
      match cmd_class c with
      | None => []
      | Some k => cmd_events pc c k (host n) ++ send_events pc host (S n) rest
      end
  end.

Definition recognized (c : cmd_desc) : bool :=
  match cmd_class c with Some _ => true | None => false end.

(** ** Values used in the examples *)

(** A zeroed [struct panel_cmds], as [devm_kzalloc] hands it out. *)
Definition pcmds_zero : panel_cmds := mk_panel_cmds [] 0 [] 0.

(** Both allocations succeed. *)
Definition alloc_ok : allocator := mk_allocator false false.

(** A DCS short write followed by a command of the unknown type FF,
    parsed from the buffer 05 00 01 29 FF 00 01 00. *)
Definition cmds_with_unknown : panel_cmds :=
  mk_panel_cmds [x05; x00; x01; x29; xff; x00; x01; x00] 8
    [mk_cmd_desc (mk_hdr x05 x00 x01) 3; mk_cmd_desc (mk_hdr xff x00 x01) 7] 2.

(** Sleep out with a wait of 120 ms, then display on with a wait of 20 ms:
    the buffer 05 78 01 11 05 14 01 29. *)
Definition cmds_sleep_out_display_on : panel_cmds :=
  mk_panel_cmds [x05; x78; x01; x11; x05; x14; x01; x29] 8
    [mk_cmd_desc (mk_hdr x05 x78 x01) 3; mk_cmd_desc (mk_hdr x05 x14 x01) 7] 2.

Definition desc_zero : panel_desc := mk_panel_desc 0 0 0 0 0 0.

(** A panel as [panel_simple_probe] leaves it, with both GPIO lines and a
    DSI device. *)
Definition panel_probed (on off : option panel_cmds) (invert : bool)
  : panel_simple :=
  mk_panel_simple true false false invert (Some desc_zero) true true on off 0.

(** A host whose first write fails with -5 (EIO) and whose later writes
    succeed. *)
Definition host_first_write_fails (n : nat) : Z :=
  match n with O => -5 | S _ => 0 end.

Definition host_ok (n : nat) : Z := 0.

(** A rail that is on or off and accepts every request. *)
Definition rail (on : bool) : regulator := mk_regulator on 0 0.

(** A rail that is off and refuses to be enabled with -110 (ETIMEDOUT). *)
Definition rail_stuck : regulator := mk_regulator false (-110) 0.

(** ** [panel_simple_shutdown] and [panel_simple_remove] *)

(** The function returns nothing; the model returns the panel it leaves. *)
Definition panel_simple_shutdown (p : panel_simple) : M panel_simple :=
  rp <- panel_simple_disable p ;;
  let p1 := snd rp in
  if prepared p1 then
    when (reset_gpio p1)
         (gpiod_direction_output ResetGpio (lnot (reset_level p1))) ;;;
    when (enable_gpio p1) (gpiod_direction_output EnableGpio 0) ;;;
    panel_simple_regulator_disable p1 ;;;
    ret p1
  else ret p1.

(** [drm_panel_remove] and the [kfree]s of [panel_simple_cmds_cleanup] act
    on the list of registered panels and on the heap, which the world does
    not hold; the two life-cycle calls between them are what is kept. *)
Definition panel_simple_remove (p : panel_simple) : M (Z * panel_simple) :=
  rp <- panel_simple_disable p ;;
  rp' <- panel_simple_unprepare (snd rp) ;;
  ret (0, snd rp').

(** ** More ways to read a world *)

(** The world with further events, rail and host as they are. *)
Definition add_events (w : world) (evs : list event) : world :=
  mk_world (supply w) (dsi_host w) (trace w ++ evs).

(** The event of [if (p->desc && p->desc->delay.X) panel_simple_sleep(...)]. *)
Definition delay_events (p : panel_simple) (field : panel_desc -> Z)
  : list event :=
  match desc p with
  | Some d => if field d =? 0 then [] else [sleep_event (field d)]
  | None => []
  end.

(** The event of a call made only when the line is there. *)
Definition gpio_event (present : bool) (line : gpio_line) (value : Z)
  : list event :=
  if present then [EvGpioOutput line value] else [].

(** The requests made of the rail, with their results. *)
Definition rail_requests (tr : list event) : list event :=
  filter (fun e => match e with
                   | EvRegulatorEnable _ | EvRegulatorDisable _ => true
                   | _ => false
                   end) tr.

(** The panel is in the state the spec calls Enabled, Prepared or
    Unprepared. *)
Definition both_flags_clear (p : panel_simple) : Prop :=
  enabled p = false /\ prepared p = false.

(** The events of the hardware steps of a successful prepare that follow
    the rail: enable line, reset line released and asserted, with the
    delays between them. *)
Definition prepare_events (p : panel_simple) : list event :=
  gpio_event (enable_gpio p) EnableGpio 1
  ++ delay_events p delay_prepare
  ++ gpio_event (reset_gpio p) ResetGpio (lnot (reset_level p))
  ++ delay_events p delay_reset
  ++ gpio_event (reset_gpio p) ResetGpio (reset_level p)
  ++ delay_events p delay_init.

(** The events of [panel_simple_regulator_disable] on rail [r]: with
    [power_invert] clear the disable request with its result; with
    [power_invert] set nothing for a rail that is on, and for a rail that
    is off the enable request with its result, followed by the failure
    line if it was refused. *)
Definition regulator_disable_events (p : panel_simple) (r : regulator)
  : list event :=
  if power_invert p then
    if rail_on r then []
    else if enable_err r <? 0
         then [EvRegulatorEnable (enable_err r);
               EvLog (LogSupplyFailed (enable_err r))]
         else [EvRegulatorEnable 0]
  else if disable_err r <? 0 then [EvRegulatorDisable (disable_err r)]
       else [EvRegulatorDisable 0].

(** What sending the on- or off-sequence [cmds] of panel [p] returns (0
    when there is no sequence or no DSI device) and the events it leaves in
    world [w], [failed] being the line logged for a nonzero return. *)
Definition sequence_ret (p : panel_simple) (cmds : option panel_cmds) : Z :=
  match cmds with
  | Some oc =>
      if dsi p then
        if forallb recognized (cmd_seq oc) then 0 else - EINVAL
      else 0
  | None => 0
  end.

Definition sequence_events (p : panel_simple) (cmds : option panel_cmds)
  (failed : log_msg) (w : world) : list event :=
  match cmds with
  | Some oc =>
      if dsi p then
        send_events oc (dsi_host w) (length (dsi_writes (trace w))) (cmd_seq oc)
        ++ (if forallb recognized (cmd_seq oc) then [] else [EvLog failed])
      else []
  | None => []
  end.

(** ** [panel_simple_get_cmds] *)

(** The lines logged while the sequences are read: those of the parser and
    the two of this function. *)
Inductive probe_log :=
| LogParse (m : log_msg)
| LogInitSequenceFailed      (* "failed to parse panel init sequence" *)
| LogExitSequenceFailed.     (* "failed to parse panel exit sequence" *)

(** The two properties of the device node the function asks for, as
    [of_get_property] returns them: [None] when the property is absent. *)
Record cmds_node := mk_cmds_node {
  panel_init_sequence : option (list u8);
  panel_exit_sequence : option (list u8)
}.

(** Outcome of the allocations: the two [devm_kzalloc] of this function
    and those inside the two calls of the parser. *)
Record cmds_allocs := mk_cmds_allocs {
  on_kzalloc_fails : bool;
  on_parse_alloc : allocator;
  off_kzalloc_fails : bool;
  off_parse_alloc : allocator
}.

Inductive get_cmds_result :=
| GotCmds (ret : Z) (panel : panel_simple) (log : list probe_log)
| GetCmdsFaulted (off : Z).

Definition set_on_cmds (c : option panel_cmds) (p : panel_simple)
  : panel_simple :=
  mk_panel_simple (dsi p) (prepared p) (enabled p) (power_invert p) (desc p)
    (enable_gpio p) (reset_gpio p) c (off_cmds p) (reset_level p).

Definition set_off_cmds (c : option panel_cmds) (p : panel_simple)
  : panel_simple :=
  mk_panel_simple (dsi p) (prepared p) (enabled p) (power_invert p) (desc p)
    (enable_gpio p) (reset_gpio p) (on_cmds p) c (reset_level p).

(** The second block of the function, for "panel-exit-sequence", entered
    with the panel and the log the first block left. *)
Definition get_exit_cmds (node : cmds_node) (mm : cmds_allocs)
  (panel : panel_simple) (log : list probe_log) : option get_cmds_result :=
  match panel_exit_sequence node with
  | None => Some (GotCmds 0 panel log)
  | Some data =>
      if off_kzalloc_fails mm then
        Some (GotCmds (- ENOMEM) (set_off_cmds None panel) log)
      else
        match panel_simple_parse_cmds (off_parse_alloc mm) data
                (Some (mk_panel_cmds [] 0 [] 0)) with
        | None => None
        | Some (Faulted off) => Some (GetCmdsFaulted off)
        | Some (Returned err pcmds plog) =>
            let panel1 := set_off_cmds pcmds panel in
            let log1 := log ++ map LogParse plog in
            if negb (err =? 0) then
              Some (GotCmds err panel1 (log1 ++ [LogExitSequenceFailed]))
            else Some (GotCmds 0 panel1 log1)
        end
  end.

Definition panel_simple_get_cmds (node : cmds_node) (mm : cmds_allocs)
  (panel : panel_simple) : option get_cmds_result :=
  match panel_init_sequence node with
  | None => get_exit_cmds node mm panel []
  | Some data =>
      if on_kzalloc_fails mm then
        Some (GotCmds (- ENOMEM) (set_on_cmds None panel) [])
      else
        match panel_simple_parse_cmds (on_parse_alloc mm) data
                (Some (mk_panel_cmds [] 0 [] 0)) with
        | None => None
        | Some (Faulted off) => Some (GetCmdsFaulted off)
        | Some (Returned err pcmds plog) =>
            let panel1 := set_on_cmds pcmds panel in
            let log1 := map LogParse plog in
            if negb (err =? 0) then
              Some (GotCmds err panel1 (log1 ++ [LogInitSequenceFailed]))
            else get_exit_cmds node mm panel1 log1
        end
  end.

(** ** [panel_simple_get_timings] *)

(** The timing members of [struct panel_desc], kept apart from the delays:
    the array [timings] and its length. The entries are of the type [T]
    ([struct display_timing], which the function only copies). *)
Record desc_timings (T : Type) := mk_desc_timings {
  timings : list T;
  num_timings : Z
}.

Arguments mk_desc_timings {T} _ _.
Arguments timings {T} _.
Arguments num_timings {T} _.

(** [a[i] = x] on an array. *)
Definition array_set {T} (a : list T) (i : nat) (x : T) : list T :=
  firstn i a ++ x :: skipn (S i) a.

(** The copying loop, [n] iterations left at index [i]; [None] when it
    reads outside the array of the descriptor or writes outside the one of
    the caller. *)
Fixpoint copy_timings {T} (n i : nat) (src out : list T)
  : option (list T) :=
  match n with
  | O => Some out
  | S n' =>
      match nth_error src i with
      | None => None
      | Some t =>
          if (i <? length out)%nat
          then copy_timings n' (S i) src (array_set out i t)
          else None
      end
  end.

Inductive timings_result (T : Type) :=
| TimingsReturned (ret : Z) (out : option (list T))
| TimingsFaulted.

Arguments TimingsReturned {T} _ _.
Arguments TimingsFaulted {T}.

(** [d] is [p->desc] ([None] for NULL), [n] the argument [num_timings] and
    [out] the caller's array ([None] for NULL). *)
Definition panel_simple_get_timings {T} (d : option (desc_timings T))
  (n : Z) (out : option (list T)) : timings_result T :=
  match d with
  | None => TimingsReturned 0 out
  | Some ds =>
      let n1 := if num_timings ds <? n then num_timings ds else n in
      match out with
      | None => TimingsReturned (to_int (num_timings ds)) None
      | Some a =>
          match copy_timings (Z.to_nat n1) 0 (timings ds) a with
          | None => TimingsFaulted
          | Some a' => TimingsReturned (to_int (num_timings ds)) (Some a')
          end
      end
  end.

(** ** [pm_config_init] of [drivers/soc/rockchip/pm_config.c] *)

Definition ENODEV : Z := 19.

Definition SUSPEND_MODE_CONFIG : Z := 0x01.
Definition WKUP_SOURCE_CONFIG : Z := 0x02.
Definition PWM_REGULATOR_CONFIG : Z := 0x03.
Definition GPIO_POWER_CONFIG : Z := 0x04.
Definition SUSPEND_DEBUG_ENABLE : Z := 0x05.
Definition APIOS_SUSPEND_CONFIG : Z := 0x06.
Definition PM_INVALID_GPIO : Z := 0xffff.

Inductive pm_warning :=
| NoSleepModeConfig          (* "not set sleep mode config" *)
| NoWakeupConfig             (* "not set wakeup-config" *)
| NoPwmRegulatorConfig.      (* "not set pwm-regulator-config" *)

(** What the function does to the outside: secure monitor calls
    ([sip_smc_set_suspend_mode], whose arguments are [u32]) and log
    lines. *)
Inductive pm_event :=
| PmSmc (ctrl config1 config2 : Z)
| PmNodeErr                  (* "%s dev node err" *)
| PmWarn (what : pm_warning).

(** What the device tree answers: whether the device matches the table,
    whether a node "rockchip-suspend" exists, the five one-cell properties
    ([None] when [of_property_read_u32_array] fails), the result of
    [of_gpio_named_count] and that of [of_get_named_gpio_flags] at each
    index. *)
Record pm_board := mk_pm_board {
  pm_matched : bool;
  pm_suspend_node : bool;
  sleep_mode_config : option Z;
  wakeup_config : option Z;
  pwm_regulator_config : option Z;
  power_ctrl_count : Z;
  power_ctrl_gpio : Z -> Z;
  sleep_debug_en : option Z;
  apios_suspend : option Z
}.

Definition sip_smc_set_suspend_mode (ctrl config1 config2 : Z) : pm_event :=
  PmSmc (to_uint ctrl) (to_uint config1) (to_uint config2).

(** The [for] loop over "rockchip,power-ctrl", [n] iterations left at
    index [i]: it returns the index it stops at and the calls made.
    [gpio_is_valid] is the kernel's predicate on GPIO numbers. *)
Fixpoint power_ctrl_loop (gpio_is_valid : Z -> bool) (gpio : Z -> Z)
  (n : nat) (i : Z) : Z * list pm_event :=
  match n with
  | O => (i, [])
  | S n' =>
      let g := gpio i in
      if negb (gpio_is_valid g) then (i, [])
      else
        let '(i', evs) := power_ctrl_loop gpio_is_valid gpio n' (i + 1) in
        (i', sip_smc_set_suspend_mode GPIO_POWER_CONFIG i g :: evs)
  end.

(** A property that is forwarded when it is there, with a warning or
    nothing when it is not. *)
Definition forward_config (ctrl : Z) (v : option Z)
  (missing : list pm_event) : list pm_event :=
  match v with
  | Some x => [sip_smc_set_suspend_mode ctrl x 0]
  | None => missing
  end.

Definition pm_config_init (gpio_is_valid : Z -> bool) (bd : pm_board)
  : Z * list pm_event :=
  if negb (pm_matched bd) then (- ENODEV, [])
  else if negb (pm_suspend_node bd) then (- ENODEV, [PmNodeErr])
  else
    let len := power_ctrl_count bd in
    let '(i, gpio_calls) :=
      if (len >? 0) && (len <? 10)
      then power_ctrl_loop gpio_is_valid (power_ctrl_gpio bd)
             (Z.to_nat len) 0
      else (0, []) in
    (0,
     forward_config SUSPEND_MODE_CONFIG (sleep_mode_config bd)
       [PmWarn NoSleepModeConfig]
     ++ forward_config WKUP_SOURCE_CONFIG (wakeup_config bd)
          [PmWarn NoWakeupConfig]
     ++ forward_config PWM_REGULATOR_CONFIG (pwm_regulator_config bd)
          [PmWarn NoPwmRegulatorConfig]
     ++ gpio_calls
     ++ [sip_smc_set_suspend_mode GPIO_POWER_CONFIG i PM_INVALID_GPIO]
     ++ forward_config SUSPEND_DEBUG_ENABLE (sleep_debug_en bd) []
     ++ forward_config APIOS_SUSPEND_CONFIG (apios_suspend bd) []).

(** The calls of one kind among the events: their two configuration
    arguments, oldest first. *)
Definition smc_calls (ctrl : Z) (evs : list pm_event) : list (Z * Z) :=
  flat_map (fun e => match e with
                     | PmSmc c a b => if c =? ctrl then [(a, b)] else []
                     | _ => []
                     end) evs.

(** A predicate on GPIO numbers as the kernel's [gpio_is_valid] is with
    512 GPIOs, and a board whose "rockchip,power-ctrl" lists the GPIOs 10
    and 11 followed by an entry that does not resolve (-2), with the sleep
    mode and the wake-up sources configured. *)
Definition gpio_below_512 (g : Z) : bool := (0 <=? g) && (g <? 512).

Definition board_two_gpios : pm_board :=
  mk_pm_board true true (Some 0x5) (Some 0x10) None 3
    (fun i => if i =? 0 then 10 else if i =? 1 then 11 else -2)
    None None.

(* ================================================================= *)
(** * Properties of the parser *)

Section Bytes.

Lemma u8_to_Z_range (b : u8) : 0 <= u8_to_Z b <= 255.
Proof.
  unfold u8_to_Z. pose proof (Byte.to_N_bounded b). lia.
Qed.

Lemma u8_to_of_Z (z : Z) : 0 <= z <= 255 -> u8_to_Z (u8_of_Z z) = z.
Proof.
  intros Hz. unfold u8_to_Z, u8_of_Z.
  destruct (Byte.of_N (Z.to_N z)) as [b|] eqn:E.
  - apply Byte.to_of_N in E. rewrite E. lia.
  - apply Byte.of_N_None_iff in E. lia.
Qed.

Lemma to_uint_small (z : Z) : 0 <= z < UINT_MODULUS -> to_uint z = z.
Proof. intros H. unfold to_uint. now apply Z.mod_small. Qed.

Lemma read_u8_Some (b : list u8) (off : Z) (x : u8) :
  read_u8 b off = Some x -> 0 <= off < Z.of_nat (length b).
Proof.
  unfold read_u8. destruct (off <? 0) eqn:E; [discriminate|].
  intros H. apply Z.ltb_ge in E.
  assert (Hn : (Z.to_nat off < length b)%nat)
    by (apply nth_error_Some; congruence).
  lia.
Qed.

Lemma read_u8_None (b : list u8) (off : Z) :
  Z.of_nat (length b) <= off -> read_u8 b off = None.
Proof.
  intros H. unfold read_u8.
  destruct (off <? 0) eqn:E; [reflexivity|].
  apply nth_error_None. lia.
Qed.

Lemma read_u8_in_range (b : list u8) (off : Z) :
  0 <= off < Z.of_nat (length b) -> exists x, read_u8 b off = Some x.
Proof.
  intros H. destruct (read_u8 b off) as [x|] eqn:E; [now exists x|].
  unfold read_u8 in E. destruct (off <? 0) eqn:E0.
  - apply Z.ltb_lt in E0. lia.
  - apply nth_error_None in E. lia.
Qed.

(** Reading behind a prefix is reading in what follows it. *)
Lemma read_u8_app (pre rest : list u8) (k : Z) :
  0 <= k ->
  read_u8 (pre ++ rest) (Z.of_nat (length pre) + k) = read_u8 rest k.
Proof.
  intros Hk. unfold read_u8.
  replace (Z.of_nat (length pre) + k <? 0) with false
    by (symmetry; apply Z.ltb_ge; lia).
  replace (k <? 0) with false by (symmetry; apply Z.ltb_ge; lia).
  replace (Z.to_nat (Z.of_nat (length pre) + k))
    with (length pre + Z.to_nat k)%nat by lia.
  rewrite nth_error_app2 by lia. f_equal. lia.
Qed.

End Bytes.

(** ** The scanning loop terminates within its bound *)

Lemma scan_cmds_fuel (b : list u8) :
  forall (fuel : nat) (bp len cnt : Z),
    (1 <= fuel)%nat ->
    Z.of_nat (length b) - bp < Z.of_nat fuel ->
    scan_cmds fuel b bp len cnt <> None.
Proof.
  induction fuel as [|f IH]; intros bp len cnt Hpos Hfuel; [lia|].
  cbn [scan_cmds].
  destruct (len >? sizeof_dchdr); [|discriminate].
  destruct (read_u8 b (bp + 2)) as [d|] eqn:Hrd; [|discriminate].
  destruct (u8_to_Z d >? len); [discriminate|].
  apply read_u8_Some in Hrd.
  pose proof (u8_to_Z_range d). unfold sizeof_dchdr.
  apply IH; lia.
Qed.

Lemma panel_simple_parse_cmds_total (mm : allocator) (data : list u8)
  (pcmds : option panel_cmds) :
  panel_simple_parse_cmds mm data pcmds <> None.
Proof.
  unfold panel_simple_parse_cmds.
  destruct pcmds as [pc|]; [|discriminate].
  destruct (kmemdup_fails mm); [discriminate|].
  destruct (scan_cmds (S (length data)) data 0
              (to_uint (Z.of_nat (length data))) 0) as [r|] eqn:Hs.
  - destruct r as [len cnt|dl|off]; try discriminate.
    destruct (negb (len =? 0)).
    + destruct (read_u8 data 0); discriminate.
    + destruct (kcalloc_fails mm); [discriminate|].
      destruct (fill_cmds _ _ _ _); discriminate.
  - exfalso. revert Hs. apply scan_cmds_fuel; lia.
Qed.

(** ** A scan that ends with nothing left has walked whole records *)

(** Once [bp] has left the buffer while [len] still asks for a header, the
    loop cannot end normally: its next read is outside the buffer. *)
Lemma scan_cmds_overrun (b : list u8) (fuel : nat) (bp len cnt r c : Z) :
  Z.of_nat (length b) <= bp + 2 ->
  sizeof_dchdr < len ->
  scan_cmds fuel b bp len cnt <> Some (ScanEnd r c).
Proof.
  intros Hout Hlen. destruct fuel as [|f]; cbn [scan_cmds];
    replace (len >? sizeof_dchdr) with true by (symmetry; lia).
  - discriminate.
  - rewrite read_u8_None by assumption. discriminate.
Qed.

Lemma read_hdr_dlen (b : list u8) (bp : Z) (d : u8) :
  0 <= bp ->
  read_u8 b (bp + 2) = Some d ->
  exists h, read_hdr b bp = Some h /\ dlen h = d.
Proof.
  intros Hbp Hd. pose proof (read_u8_Some _ _ _ Hd) as Hr.
  destruct (read_u8_in_range b bp) as [t Ht]; [lia|].
  destruct (read_u8_in_range b (bp + 1)) as [w Hw]; [lia|].
  exists (mk_hdr t w d). unfold read_hdr. rewrite Ht, Hw, Hd. auto.
Qed.

Lemma scan_end_fill (b : list u8) :
  forall (fuel : nat) (bp len cnt cnt' : Z),
    0 <= bp ->
    0 <= len < UINT_MODULUS ->
    bp + len = Z.of_nat (length b) ->
    scan_cmds fuel b bp len cnt = Some (ScanEnd 0 cnt') ->
    cnt <= cnt' /\
    exists cs,
      fill_cmds (Z.to_nat (cnt' - cnt)) b bp len = inl cs /\
      total_size cs = len /\
      Z.of_nat (length cs) = cnt' - cnt.
Proof.
  induction fuel as [|f IH]; intros bp len cnt cnt' Hbp Hlen Hsum Hscan;
    cbn [scan_cmds] in Hscan;
    destruct (len >? sizeof_dchdr) eqn:Hgt;
    try discriminate;
    try (injection Hscan as -> ->; split; [lia|];
         exists []; rewrite Z.sub_diag; cbn; auto).
  destruct (read_u8 b (bp + 2)) as [d|] eqn:Hrd; [|discriminate].
  destruct (u8_to_Z d >? len) eqn:Hbad; [discriminate|].
  pose proof (u8_to_Z_range d) as Hd.
  unfold sizeof_dchdr in *. apply Z.gtb_lt in Hgt.
  rewrite (to_uint_small (len - 3)) in Hscan by lia.
  destruct (Z_le_gt_dec (u8_to_Z d) (len - 3)) as [Hfit|Hover].
  - (* the payload lies inside the buffer *)
    rewrite (to_uint_small (len - 3 - u8_to_Z d)) in Hscan by lia.
    apply IH in Hscan; try lia.
    destruct Hscan as (Hcnt & cs & Hfill & Hsize & Hlength).
    split; [lia|].
    destruct (read_hdr_dlen b bp d Hbp Hrd) as (h & Hh & Hdl).
    exists (mk_cmd_desc h (bp + 3) :: cs).
    replace (Z.to_nat (cnt' - cnt)) with (S (Z.to_nat (cnt' - (cnt + 1))))
      by lia.
    cbn [fill_cmds]. rewrite Hh, Hdl. unfold sizeof_dchdr.
    rewrite (to_uint_small (len - 3)) by lia.
    rewrite (to_uint_small (len - 3 - u8_to_Z d)) by lia.
    rewrite Hfill. split; [reflexivity|].
    split.
    + unfold total_size in *. cbn [map fold_right].
      unfold record_size at 1. cbn [dchdr]. rewrite Hdl, Hsize.
      unfold sizeof_dchdr. lia.
    + cbn [length]. lia.
  - (* the payload runs past the end: [len] wraps and [bp] is outside *)
    exfalso. revert Hscan. apply scan_cmds_overrun.
    + lia.
    + unfold to_uint, UINT_MODULUS in *.
      assert (Hw : (len - 3 - u8_to_Z d) mod 2 ^ 32
                   = len - 3 - u8_to_Z d + 2 ^ 32).
      { symmetry. apply Z.mod_unique with (q := -1); lia. }
      rewrite Hw. unfold sizeof_dchdr. lia.
Qed.

Lemma firstn_length_all {A} (l : list A) (n : Z) :
  Z.of_nat (length l) = n -> firstn (Z.to_nat n) l = l.
Proof. intros <-. rewrite Nat2Z.id. apply firstn_all. Qed.

(** C4. Whenever the parser returns 0, the sizes of the parsed commands,
    three header bytes plus the payload length each, add up to exactly the
    length of the buffer: nothing is left over and nothing is missing.
    ([blen] is a C [int], so the buffer has at most [INT_MAX] bytes.) *)
Theorem parse_cmds_total_size (mm : allocator) (data : list u8)
  (pcmds : option panel_cmds) (pc : panel_cmds) (log : list log_msg) :
  Z.of_nat (length data) <= INT_MAX ->
  panel_simple_parse_cmds mm data pcmds = Some (Returned 0 (Some pc) log) ->
  total_size (cmd_seq pc) = Z.of_nat (length data)
  /\ cmd_seq pc = cmds pc
  /\ buf pc = data
  /\ blen pc = Z.of_nat (length data).
Proof.
  intros Hint Hparse. unfold panel_simple_parse_cmds in Hparse.
  destruct pcmds as [pc_in|]; [|discriminate].
  destruct (kmemdup_fails mm); [discriminate|].
  assert (Hu : to_uint (Z.of_nat (length data)) = Z.of_nat (length data))
    by (apply to_uint_small; unfold INT_MAX, UINT_MODULUS in *; lia).
  rewrite Hu in Hparse.
  destruct (scan_cmds _ _ _ _ _) as [[len cnt|dl|off]|] eqn:Hscan;
    try discriminate.
  destruct (len =? 0) eqn:Hzero; cbn [negb] in Hparse.
  - apply Z.eqb_eq in Hzero. subst len.
    destruct (kcalloc_fails mm); [discriminate|].
    apply scan_end_fill in Hscan;
      [|lia|unfold INT_MAX, UINT_MODULUS in *; lia|lia].
    destruct Hscan as (_ & cs & Hfill & Hsize & Hlength).
    rewrite Z.sub_0_r in Hfill, Hlength. rewrite Hfill in Hparse.
    injection Hparse as <- <-.
    unfold cmd_seq. cbn [cmds cmd_cnt buf blen].
    rewrite (firstn_length_all cs cnt Hlength). auto.
  - destruct (read_u8 data 0); discriminate.
Qed.

(** C4, at a buffer of two records. *)
Lemma parse_cmds_total_size_witness :
  total_size
    (cmd_seq (mk_panel_cmds [x05; x78; x01; x11; x39; x00; x02; xb0; x04] 9
                [mk_cmd_desc (mk_hdr x05 x78 x01) 3;
                 mk_cmd_desc (mk_hdr x39 x00 x02) 7] 2)) = 9.
Proof.
  refine (proj1 (parse_cmds_total_size alloc_ok
                   [x05; x78; x01; x11; x39; x00; x02; xb0; x04]
                   (Some pcmds_zero) _ [] _ _)).
  - vm_compute. discriminate.
  - reflexivity.
Defined.

(** ** A payload length up to three bytes too large is not caught *)

(** The check [dchdr->dlen > len] compares with the bytes left including
    the header. A payload that overruns the buffer by one to three bytes
    passes it; the next pass of the loop then reads a length byte that lies
    outside the buffer. *)
Lemma scan_cmds_overlong_payload (b : list u8) (fuel : nat)
  (bp len cnt : Z) (d : u8) :
  0 <= bp ->
  bp + len = Z.of_nat (length b) ->
  len < UINT_MODULUS ->
  sizeof_dchdr < len ->
  read_u8 b (bp + 2) = Some d ->
  len - sizeof_dchdr < u8_to_Z d <= len ->
  scan_cmds (S (S fuel)) b bp len cnt
  = Some (ScanFault (bp + sizeof_dchdr + u8_to_Z d + 2)).
Proof.
  intros Hbp Hsum Hmax Hlen Hrd Hover. unfold sizeof_dchdr in *.
  cbn [scan_cmds]. unfold sizeof_dchdr.
  replace (len >? 3) with true by (symmetry; lia).
  rewrite Hrd.
  replace (u8_to_Z d >? len) with false by (symmetry; lia).
  rewrite (to_uint_small (len - 3)) by lia.
  assert (Hw : to_uint (len - 3 - u8_to_Z d) = len - 3 - u8_to_Z d + 2 ^ 32).
  { unfold to_uint, UINT_MODULUS in *. symmetry.
    apply Z.mod_unique with (q := -1); lia. }
  rewrite Hw.
  replace (len - 3 - u8_to_Z d + 2 ^ 32 >? 3) with true
    by (symmetry; unfold UINT_MODULUS in *; lia).
  rewrite read_u8_None by lia. reflexivity.
Qed.

(** C1. The buffer 05 00 02 AA holds one record whose header declares two
    payload bytes while a single byte is left after the header. The parser
    does not fail with the length error: the check passes, [len] wraps
    around, and the scan goes on to read the byte at offset 7 of the
    four-byte buffer. *)
Theorem parse_cmds_reads_past_buffer :
  panel_simple_parse_cmds alloc_ok [x05; x00; x02; xaa] (Some pcmds_zero)
  = Some (Faulted 7).
Proof. reflexivity. Qed.

(** C9. An empty buffer parses to the empty sequence and the parser
    returns 0. A buffer of one or two bytes, too short for a header, leaves
    the scanning loop at once with no record counted and all its bytes
    left, and the parser fails with -EINVAL through the trailing-bytes
    branch. (Both allocations are taken to succeed.) *)
Theorem parse_cmds_short_buffer (mm : allocator) (pc_in : panel_cmds) :
  kmemdup_fails mm = false ->
  kcalloc_fails mm = false ->
  panel_simple_parse_cmds mm [] (Some pc_in)
  = Some (Returned 0 (Some (mk_panel_cmds [] 0 [] 0)) [])
  /\
  forall data : list u8,
    (0 < length data < 3)%nat ->
    scan_cmds (S (length data)) data 0 (to_uint (Z.of_nat (length data))) 0
    = Some (ScanEnd (Z.of_nat (length data)) 0)
    /\ exists b0 : u8,
        hd_error data = Some b0 /\
        panel_simple_parse_cmds mm data (Some pc_in)
        = Some (Returned (- EINVAL) (Some pc_in)
                  [LogParseTrailer b0 (Z.of_nat (length data))]).
Proof.
  intros Hdup Hcalloc. unfold panel_simple_parse_cmds.
  rewrite Hdup. split.
  - cbn. rewrite Hcalloc. reflexivity.
  - intros data Hshort.
    destruct data as [|b0 [|b1 [|b2 rest]]]; cbn [length] in Hshort;
      try lia; (split; [reflexivity|]); exists b0; split; reflexivity.
Qed.

(** C9, for the allocator that succeeds and the two-byte buffer 05 00. *)
Lemma parse_cmds_short_buffer_witness :
  panel_simple_parse_cmds alloc_ok [] (Some pcmds_zero)
  = Some (Returned 0 (Some (mk_panel_cmds [] 0 [] 0)) [])
  /\ panel_simple_parse_cmds alloc_ok [x05; x00] (Some pcmds_zero)
     = Some (Returned (- EINVAL) (Some pcmds_zero) [LogParseTrailer x05 2]).
Proof.
  destruct (parse_cmds_short_buffer alloc_ok pcmds_zero eq_refl eq_refl)
    as [Hempty Hshort].
  split; [exact Hempty|].
  destruct (Hshort [x05; x00]) as [_ [b0 [Hhd Hparse]]].
  - cbn. lia.
  - injection Hhd as <-. exact Hparse.
Defined.

(** ** Parsing what the encoder wrote *)

Section RoundTrip.

Lemma serialize_cons (c : command) (cs : list command) :
  serialize (c :: cs)
  = c_type c :: c_wait c :: u8_of_Z (Z.of_nat (length (c_payload c)))
      :: (c_payload c ++ serialize cs).
Proof. reflexivity. Qed.

Lemma serialize_length_cons (c : command) (cs : list command) :
  Z.of_nat (length (serialize (c :: cs)))
  = 3 + Z.of_nat (length (c_payload c)) + Z.of_nat (length (serialize cs)).
Proof.
  rewrite serialize_cons. cbn [length]. rewrite length_app. lia.
Qed.

Lemma serialize_length_ge (cs : list command) :
  (length cs <= length (serialize cs))%nat.
Proof.
  induction cs as [|c cs IH]; [apply Nat.le_refl|].
  pose proof (serialize_length_cons c cs). cbn [length] in *. lia.
Qed.

Lemma serialize_snoc_buffer (pre : list u8) (c : command)
  (cs : list command) :
  pre ++ serialize (c :: cs) = (pre ++ serialize_cmd c) ++ serialize cs.
Proof. unfold serialize. cbn [flat_map]. now rewrite app_assoc. Qed.

Lemma last_has_payload_tail (c : command) (cs : list command) :
  last_has_payload (c :: cs) -> last_has_payload cs.
Proof. destruct cs; cbn; auto. Qed.

(** A record that is followed by nothing needs a payload byte, or the
    loop condition [len > 3] does not hold for it. *)
Lemma last_has_payload_more (c : command) (cs : list command) :
  last_has_payload (c :: cs) ->
  0 < Z.of_nat (length (c_payload c)) + Z.of_nat (length (serialize cs)).
Proof.
  destruct cs as [|c' cs']; cbn [last_has_payload].
  - intros Hne. destruct (c_payload c); [congruence|]. cbn [length]. lia.
  - intros _. pose proof (serialize_length_cons c' cs'). lia.
Qed.

Lemma read_u8_third (t w l : u8) (rest : list u8) :
  read_u8 (t :: w :: l :: rest) 2 = Some l.
Proof. reflexivity. Qed.

Lemma read_hdr_app (pre rest : list u8) (t w l : u8) :
  read_hdr (pre ++ t :: w :: l :: rest) (Z.of_nat (length pre))
  = Some (mk_hdr t w l).
Proof.
  unfold read_hdr.
  rewrite <- (Z.add_0_r (Z.of_nat (length pre))) at 1.
  rewrite !read_u8_app by lia. reflexivity.
Qed.

Lemma scan_serialize :
  forall (cs : list command) (pre : list u8) (fuel : nat) (cnt : Z),
    Forall fits cs ->
    last_has_payload cs ->
    Z.of_nat (length (serialize cs)) < UINT_MODULUS ->
    (length cs < fuel)%nat ->
    scan_cmds fuel (pre ++ serialize cs) (Z.of_nat (length pre))
      (Z.of_nat (length (serialize cs))) cnt
    = Some (ScanEnd 0 (cnt + Z.of_nat (length cs))).
Proof.
  induction cs as [|c cs IH]; intros pre fuel cnt Hfits Hlast Hmax Hfuel;
    (destruct fuel as [|f]; [cbn [length] in Hfuel; lia|]).
  - cbn. now rewrite Z.add_0_r.
  - inversion Hfits as [|? ? Hc Hcs]; subst. unfold fits in Hc.
    pose proof (last_has_payload_more c cs Hlast) as Hmore.
    pose proof (serialize_length_cons c cs) as Hlen.
    set (L := Z.of_nat (length (c_payload c))) in *.
    cbn [scan_cmds]. unfold sizeof_dchdr.
    replace (_ >? 3) with true by (symmetry; lia).
    rewrite serialize_cons at 1.
    rewrite read_u8_app, read_u8_third by lia.
    fold L. rewrite u8_to_of_Z by lia.
    replace (L >? _) with false by (symmetry; lia).
    rewrite Hlen.
    rewrite (to_uint_small (3 + L + _ - 3)) by lia.
    rewrite (to_uint_small (3 + L + _ - 3 - L)) by lia.
    rewrite serialize_snoc_buffer.
    replace (Z.of_nat (length pre) + 3 + L)
      with (Z.of_nat (length (pre ++ serialize_cmd c)))
      by (rewrite length_app; unfold serialize_cmd; cbn [length]; lia).
    replace (3 + L + Z.of_nat (length (serialize cs)) - 3 - L)
      with (Z.of_nat (length (serialize cs))) by lia.
    rewrite IH; auto.
    + f_equal. f_equal. cbn [length]. lia.
    + eapply last_has_payload_tail; eauto.
    + lia.
    + cbn [length] in Hfuel. lia.
Qed.

Lemma payload_slice (pre rest p : list u8) (t w l : u8) :
  firstn (length p)
    (skipn (Z.to_nat (Z.of_nat (length pre) + 3))
           (pre ++ t :: w :: l :: p ++ rest)) = p.
Proof.
  replace (Z.to_nat (Z.of_nat (length pre) + 3))
    with (length pre + 3)%nat by lia.
  rewrite skipn_app, skipn_all2 by lia.
  replace (length pre + 3 - length pre)%nat with 3%nat by lia.
  cbn [skipn app]. rewrite firstn_app, firstn_all, Nat.sub_diag.
  cbn [firstn]. apply app_nil_r.
Qed.

Lemma fill_serialize :
  forall (cs : list command) (pre : list u8) (len : Z),
    Forall fits cs ->
    exists ds,
      fill_cmds (length cs) (pre ++ serialize cs) (Z.of_nat (length pre)) len
      = inl ds
      /\ length ds = length cs
      /\ forall pc, buf pc = pre ++ serialize cs ->
                    map (command_of pc) ds = cs.
Proof.
  induction cs as [|c cs IH]; intros pre len Hfits.
  - exists []. cbn. auto.
  - inversion Hfits as [|? ? Hc Hcs]; subst. unfold fits in Hc.
    set (L := Z.of_nat (length (c_payload c))).
    set (h := mk_hdr (c_type c) (c_wait c) (u8_of_Z L)).
    assert (HL : u8_to_Z (dlen h) = L)
      by (cbn [h dlen]; apply u8_to_of_Z; lia).
    destruct (IH (pre ++ serialize_cmd c)
                (to_uint (to_uint (len - sizeof_dchdr) - L)) Hcs)
      as (ds & Hfill & Hlength & Hmap).
    exists (mk_cmd_desc h (Z.of_nat (length pre) + sizeof_dchdr) :: ds).
    split; [|split].
    + cbn [length fill_cmds].
      replace (read_hdr (pre ++ serialize (c :: cs)) (Z.of_nat (length pre)))
        with (Some h) by (rewrite serialize_cons; symmetry; apply read_hdr_app).
      rewrite HL, serialize_snoc_buffer.
      replace (Z.of_nat (length pre) + sizeof_dchdr + L)
        with (Z.of_nat (length (pre ++ serialize_cmd c)))
        by (rewrite length_app; unfold serialize_cmd, sizeof_dchdr;
            cbn [length]; lia).
      now rewrite Hfill.
    + cbn [length]; congruence.
    + intros pc Hbuf. cbn [map].
      rewrite Hmap by (rewrite Hbuf; apply serialize_snoc_buffer).
      f_equal.
      unfold command_of, cmd_payload. cbn [dchdr payload].
      rewrite HL. unfold L. rewrite Nat2Z.id.
      rewrite Hbuf, serialize_cons.
      unfold sizeof_dchdr. rewrite payload_slice. now destruct c.
Qed.

End RoundTrip.

(** C3, as the code has it. A list of commands, each with at most 255
    payload bytes, that is empty or ends in a command with at least one
    payload byte, is written as consecutive records (three header bytes,
    then the payload) into a buffer that fits a C [int] length; parsing
    that buffer returns 0 and yields as many commands, with the same type,
    wait and payload bytes, in the same order. (Both allocations are taken
    to succeed.) *)
Theorem parse_serialize_roundtrip (mm : allocator) (pc_in : panel_cmds)
  (cs : list command) :
  kmemdup_fails mm = false ->
  kcalloc_fails mm = false ->
  Forall fits cs ->
  Z.of_nat (length (serialize cs)) <= INT_MAX ->
  last_has_payload cs ->
  exists pc,
    panel_simple_parse_cmds mm (serialize cs) (Some pc_in)
    = Some (Returned 0 (Some pc) [])
    /\ cmd_cnt pc = Z.of_nat (length cs)
    /\ commands_of pc = cs.
Proof.
  intros Hdup Hcalloc Hfits Hint Hlast.
  assert (Hmax : Z.of_nat (length (serialize cs)) < UINT_MODULUS)
    by (unfold INT_MAX, UINT_MODULUS in *; lia).
  unfold panel_simple_parse_cmds. rewrite Hdup.
  rewrite to_uint_small by lia.
  pose proof (scan_serialize cs [] (S (length (serialize cs))) 0
                Hfits Hlast Hmax) as Hscan.
  cbn [app length Z.of_nat] in Hscan. rewrite Hscan
    by (pose proof (serialize_length_ge cs); lia).
  cbn [Z.eqb negb Z.add]. rewrite Hcalloc, Nat2Z.id.
  destruct (fill_serialize cs [] (Z.of_nat (length (serialize cs))) Hfits)
    as (ds & Hfill & Hlength & Hmap).
  cbn [app length Z.of_nat] in Hfill. rewrite Hfill.
  eexists. split; [reflexivity|]. split; [reflexivity|].
  unfold commands_of, cmd_seq. cbn [cmd_cnt cmds].
  rewrite Nat2Z.id, <- Hlength, firstn_all. now apply Hmap.
Qed.

(** C3, at the two commands 05 78 [11] and 39 00 [B0 04]. *)
Lemma parse_serialize_roundtrip_witness :
  exists pc,
    panel_simple_parse_cmds alloc_ok
      [x05; x78; x01; x11; x39; x00; x02; xb0; x04] (Some pcmds_zero)
    = Some (Returned 0 (Some pc) [])
    /\ cmd_cnt pc = 2
    /\ commands_of pc
       = [mk_command x05 x78 [x11]; mk_command x39 x00 [xb0; x04]].
Proof.
  refine (parse_serialize_roundtrip alloc_ok pcmds_zero
            [mk_command x05 x78 [x11]; mk_command x39 x00 [xb0; x04]]
            eq_refl eq_refl _ _ _).
  - repeat constructor.
  - vm_compute. discriminate.
  - cbn. discriminate.
Defined.

(** C3 as stated fails: the single command of type 03 (generic short write
    without parameters) with an empty payload is written as the three bytes
    03 00 00, and the parser rejects them as trailing bytes, because its
    loop only takes a record when more than three bytes are left. *)
Lemma parse_serialize_header_only_rejected :
  Forall fits [mk_command x03 x00 []]
  /\ serialize [mk_command x03 x00 []] = [x03; x00; x00]
  /\ panel_simple_parse_cmds alloc_ok (serialize [mk_command x03 x00 []])
       (Some pcmds_zero)
     = Some (Returned (- EINVAL) (Some pcmds_zero) [LogParseTrailer x03 3])
  /\ ~ exists pc log,
         panel_simple_parse_cmds alloc_ok (serialize [mk_command x03 x00 []])
           (Some pcmds_zero)
         = Some (Returned 0 (Some pc) log).
Proof.
  split; [repeat constructor|].
  split; [reflexivity|].
  split; [reflexivity|].
  intros (pc & log & H). discriminate H.
Qed.

(* ================================================================= *)
(** * Properties of the transmitter *)

Section Traces.

Lemma dsi_writes_app (t1 t2 : list event) :
  dsi_writes (t1 ++ t2) = dsi_writes t1 ++ dsi_writes t2.
Proof. apply filter_app. Qed.

Lemma dsi_sent_app (t1 t2 : list event) :
  dsi_sent (t1 ++ t2) = dsi_sent t1 ++ dsi_sent t2.
Proof. apply flat_map_app. Qed.

Lemma sleeps_app (t1 t2 : list event) :
  sleeps (t1 ++ t2) = sleeps t1 ++ sleeps t2.
Proof. apply filter_app. Qed.

Lemma write_failures_app (t1 t2 : list event) :
  write_failures (t1 ++ t2) = write_failures t1 ++ write_failures t2.
Proof. apply flat_map_app. Qed.

Lemma panel_simple_sleep_emit (msec : Z) :
  panel_simple_sleep msec = emit (sleep_event msec).
Proof.
  unfold panel_simple_sleep, sleep_event. now destruct (msec >? 20).
Qed.

Lemma sleeps_sleep_event (msec : Z) :
  sleeps [sleep_event msec] = [sleep_event msec].
Proof. unfold sleep_event. now destruct (msec >? 20). Qed.

Lemma dsi_sent_sleep_event (msec : Z) : dsi_sent [sleep_event msec] = [].
Proof. unfold sleep_event. now destruct (msec >? 20). Qed.

Lemma write_failures_sleep_event (msec : Z) :
  write_failures [sleep_event msec] = [].
Proof. unfold sleep_event. now destruct (msec >? 20). Qed.

Lemma dsi_writes_sleep_event (msec : Z) : dsi_writes [sleep_event msec] = [].
Proof. unfold sleep_event. now destruct (msec >? 20). Qed.

Variable pc : panel_cmds.

Lemma dsi_writes_cmd_events (c : cmd_desc) (k : write_class) (r : Z) :
  length (dsi_writes (cmd_events pc c k r)) = 1%nat.
Proof.
  unfold cmd_events. cbn [dsi_writes filter is_dsi_write length].
  change (filter is_dsi_write ?l) with (dsi_writes l).
  rewrite dsi_writes_app.
  destruct (to_int r <? 0), (u8_to_Z (wait (dchdr c)) =? 0);
    cbn [app]; try rewrite dsi_writes_sleep_event; reflexivity.
Qed.

(** One pass of the loop appends the events of its command. *)
Lemma send_loop_step (c : cmd_desc) (k : write_class)
  (rest : list cmd_desc) (w : world) :
  cmd_class c = Some k ->
  send_loop pc (c :: rest) w
  = send_loop pc rest
      (mk_world (supply w) (dsi_host w)
         (trace w ++ cmd_events pc c k
                       (dsi_host w (length (dsi_writes (trace w)))))).
Proof.
  intros Hk. cbn [send_loop]. rewrite Hk.
  replace (match k with
           | GenericWrite =>
               mipi_dsi_generic_write (cmd_payload pc c)
                 (u8_to_Z (dlen (dchdr c)))
           | DcsWrite =>
               mipi_dsi_dcs_write_buffer (cmd_payload pc c)
                 (u8_to_Z (dlen (dchdr c)))
           end)
    with (mipi_dsi_write k (cmd_payload pc c) (u8_to_Z (dlen (dchdr c))))
    by now destruct k.
  unfold bind, mipi_dsi_write, when, dev_err, emit, ret, cmd_events.
  rewrite panel_simple_sleep_emit. unfold emit.
  set (r := dsi_host w (length (dsi_writes (trace w)))).
  destruct (to_int r <? 0), (u8_to_Z (wait (dchdr c)) =? 0);
    cbn [negb supply dsi_host trace app];
    repeat rewrite <- app_assoc; reflexivity.
Qed.

(** The loop as a whole: its return value only depends on the types, and
    the world only gains the events of [send_events]. *)
Lemma send_loop_trace :
  forall (cs : list cmd_desc) (w : world),
    send_loop pc cs w
    = (if forallb recognized cs then 0 else - EINVAL,
       mk_world (supply w) (dsi_host w)
         (trace w ++ send_events pc (dsi_host w)
                       (length (dsi_writes (trace w))) cs)).
Proof.
  induction cs as [|c rest IH]; intros w.
  - cbn. rewrite app_nil_r. now destruct w.
  - cbn [forallb send_events]. unfold recognized at 1.
    destruct (cmd_class c) as [k|] eqn:Hk.
    + rewrite (send_loop_step c k rest w Hk), IH.
      cbn [supply dsi_host trace andb].
      rewrite dsi_writes_app, length_app, dsi_writes_cmd_events.
      rewrite Nat.add_1_r, <- app_assoc. reflexivity.
    + cbn [send_loop]. rewrite Hk. cbn. rewrite app_nil_r.
      now destruct w.
Qed.

Lemma send_events_app (host : nat -> Z) :
  forall (pre rest : list cmd_desc) (n : nat),
    forallb recognized pre = true ->
    send_events pc host n (pre ++ rest)
    = send_events pc host n pre
      ++ send_events pc host (n + length pre) rest.
Proof.
  induction pre as [|c pre IH]; intros rest n Hrec.
  - cbn. now rewrite Nat.add_0_r.
  - cbn [forallb] in Hrec. apply andb_true_iff in Hrec as [Hc Hpre].
    unfold recognized in Hc. cbn [app send_events length].
    destruct (cmd_class c); [|discriminate].
    rewrite IH by assumption. rewrite <- app_assoc.
    now rewrite Nat.add_succ_r.
Qed.

Lemma dsi_sent_cmd_events (c : cmd_desc) (k : write_class) (r : Z) :
  cmd_class c = Some k ->
  dsi_sent (cmd_events pc c k r) = transmission pc c.
Proof.
  intros Hk. unfold cmd_events, transmission. rewrite Hk.
  cbn [dsi_sent flat_map app].
  change (flat_map _ ?l) with (dsi_sent l). rewrite dsi_sent_app.
  destruct (to_int r <? 0), (u8_to_Z (wait (dchdr c)) =? 0);
    cbn [app]; try rewrite dsi_sent_sleep_event; reflexivity.
Qed.

Lemma sleeps_cmd_events (c : cmd_desc) (k : write_class) (r : Z) :
  sleeps (cmd_events pc c k r) = waits [c].
Proof.
  unfold cmd_events, waits. cbn [sleeps filter flat_map].
  change (filter _ ?l) with (sleeps l). rewrite sleeps_app, app_nil_r.
  destruct (to_int r <? 0), (u8_to_Z (wait (dchdr c)) =? 0);
    cbn [app]; try rewrite sleeps_sleep_event; reflexivity.
Qed.

Lemma write_failures_cmd_events (c : cmd_desc) (k : write_class) (r : Z) :
  write_failures (cmd_events pc c k r)
  = if to_int r <? 0 then [to_int r] else [].
Proof.
  unfold cmd_events. cbn [write_failures flat_map app].
  change (flat_map _ ?l) with (write_failures l).
  rewrite write_failures_app.
  destruct (to_int r <? 0), (u8_to_Z (wait (dchdr c)) =? 0);
    cbn [app]; try rewrite write_failures_sleep_event; reflexivity.
Qed.

(** Projections of the events of a run over recognized commands. *)
Lemma send_events_recognized (host : nat -> Z) :
  forall (cs : list cmd_desc) (n : nat),
    forallb recognized cs = true ->
    dsi_sent (send_events pc host n cs) = transmissions pc cs
    /\ length (transmissions pc cs) = length cs
    /\ sleeps (send_events pc host n cs) = waits cs
    /\ write_failures (send_events pc host n cs)
       = filter (fun e => e <? 0)
           (map (fun i => to_int (host i)) (seq n (length cs))).
Proof.
  induction cs as [|c cs IH]; intros n Hrec; [cbn; auto|].
  cbn [forallb] in Hrec. apply andb_true_iff in Hrec as [Hc Hcs].
  unfold recognized in Hc. cbn [send_events].
  destruct (cmd_class c) as [k|] eqn:Hk; [|discriminate].
  destruct (IH (S n) Hcs) as (Hsent & Hlen & Hsleep & Hfail).
  rewrite dsi_sent_app, sleeps_app, write_failures_app.
  rewrite Hsent, Hsleep, Hfail.
  rewrite (dsi_sent_cmd_events c k _ Hk), sleeps_cmd_events,
    write_failures_cmd_events.
  split; [reflexivity|]. split; [|split].
  - unfold transmissions. cbn [flat_map length]. rewrite length_app.
    fold (transmissions pc cs). rewrite Hlen.
    unfold transmission. now rewrite Hk.
  - unfold waits. cbn [flat_map]. now rewrite app_nil_r.
  - cbn [length seq map filter]. now destruct (to_int (host n) <? 0).
Qed.

End Traces.

(** C5. When the sequence holds a command of an unrecognized type, with
    only recognized commands before it, sending returns -EINVAL; the host
    has then received the writes of the commands before it, one each and in
    order, and nothing else: neither the unrecognized command nor any
    command after it is transmitted. *)
Theorem send_cmds_unknown_type (p : panel_simple) (pc : panel_cmds)
  (w : world) (pre post : list cmd_desc) (bad : cmd_desc) :
  cmd_seq pc = pre ++ bad :: post ->
  forallb recognized pre = true ->
  cmd_class bad = None ->
  let '(r, w') := panel_simple_dsi_send_cmds p (Some pc) w in
  r = - EINVAL
  /\ dsi_sent (trace w') = dsi_sent (trace w) ++ transmissions pc pre
  /\ length (transmissions pc pre) = length pre.
Proof.
  intros Hseq Hpre Hbad. unfold panel_simple_dsi_send_cmds.
  rewrite send_loop_trace, Hseq. cbn [trace].
  rewrite forallb_app, Hpre. cbn [forallb andb].
  unfold recognized at 1. rewrite Hbad. cbn [andb].
  split; [reflexivity|].
  rewrite send_events_app by assumption.
  cbn [send_events]. rewrite Hbad, app_nil_r, dsi_sent_app.
  destruct (send_events_recognized pc (dsi_host w) pre
              (length (dsi_writes (trace w))) Hpre) as (Hsent & Hlen & _).
  now rewrite Hsent.
Qed.

(** C5, at the two-command sequence whose second command has type FF: the
    first command, and only it, reaches the host. *)
Lemma send_cmds_unknown_type_witness :
  let '(r, w') :=
    panel_simple_dsi_send_cmds (panel_probed None None false)
      (Some cmds_with_unknown) (mk_world (rail true) host_ok []) in
  r = - EINVAL
  /\ dsi_sent (trace w') = [] ++ [(DcsWrite, [x29], 1)]
  /\ length [(DcsWrite, [x29], 1)] = 1%nat.
Proof.
  exact (send_cmds_unknown_type (panel_probed None None false)
           cmds_with_unknown (mk_world (rail true) host_ok [])
           [mk_cmd_desc (mk_hdr x05 x00 x01) 3] []
           (mk_cmd_desc (mk_hdr xff x00 x01) 7)
           eq_refl eq_refl eq_refl).
Defined.

(** C6. When every command of the sequence has a recognized type, sending
    returns 0 whatever the host answers to the writes. The world gains, for
    each command in order, its write, then the failure line if the host's
    answer is negative once stored in [int err], then its sleep if the
    wait is not 0 ([send_events]); rail and host are as before. So every
    command is handed to the host, every nonzero wait is slept, and every
    answer that is negative as an [int] is reported in the log. *)
Theorem send_cmds_write_failure_not_fatal (p : panel_simple)
  (pc : panel_cmds) (w : world) :
  forallb recognized (cmd_seq pc) = true ->
  let '(r, w') := panel_simple_dsi_send_cmds p (Some pc) w in
  r = 0
  /\ w' = add_events w
            (send_events pc (dsi_host w) (length (dsi_writes (trace w)))
               (cmd_seq pc))
  /\ dsi_sent (trace w') = dsi_sent (trace w) ++ transmissions pc (cmd_seq pc)
  /\ length (transmissions pc (cmd_seq pc)) = length (cmd_seq pc)
  /\ sleeps (trace w') = sleeps (trace w) ++ waits (cmd_seq pc)
  /\ write_failures (trace w')
     = write_failures (trace w)
       ++ filter (fun e => e <? 0)
            (map (fun i => to_int (dsi_host w i))
               (seq (length (dsi_writes (trace w))) (length (cmd_seq pc)))).
Proof.
  intros Hrec. unfold panel_simple_dsi_send_cmds.
  rewrite send_loop_trace, Hrec. cbn [trace].
  destruct (send_events_recognized pc (dsi_host w) (cmd_seq pc)
              (length (dsi_writes (trace w))) Hrec)
    as (Hsent & Hlen & Hsleep & Hfail).
  rewrite dsi_sent_app, sleeps_app, write_failures_app.
  rewrite Hsent, Hsleep, Hfail. unfold add_events. auto 7.
Qed.

(** C6, for a host that fails the first write with -5: the failure is
    logged behind the first write, the first wait (120 ms) is still slept,
    and the second command is written and its wait (20 ms) slept. *)
Lemma send_cmds_write_failure_not_fatal_witness :
  let '(r, w') :=
    panel_simple_dsi_send_cmds (panel_probed None None false)
      (Some cmds_sleep_out_display_on)
      (mk_world (rail true) host_first_write_fails []) in
  r = 0
  /\ w' = mk_world (rail true) host_first_write_fails
            [EvDsiWrite DcsWrite [x11] 1 (-5); EvLog (LogWriteFailed (-5));
             EvMsleep 120;
             EvDsiWrite DcsWrite [x29] 1 0; EvUsleepRange 20000 21000]
  /\ dsi_sent (trace w') = [] ++ [(DcsWrite, [x11], 1); (DcsWrite, [x29], 1)]
  /\ length [(DcsWrite, [x11], 1); (DcsWrite, [x29], 1)] = 2%nat
  /\ sleeps (trace w') = [] ++ [EvMsleep 120; EvUsleepRange 20000 21000]
  /\ write_failures (trace w') = [] ++ [-5].
Proof.
  exact (send_cmds_write_failure_not_fatal (panel_probed None None false)
           cmds_sleep_out_display_on
           (mk_world (rail true) host_first_write_fails []) eq_refl).
Defined.

(** An answer of the host that does not fit an [int] is tested and logged
    as the [int] it is stored in: 2^31 counts as a failure, logged as
    -2^31, and -2^32 is stored as 0 and counts as none. *)
Lemma send_cmds_answer_stored_in_int :
  write_failures
    (trace (snd (panel_simple_dsi_send_cmds (panel_probed None None false)
                   (Some cmds_sleep_out_display_on)
                   (mk_world (rail true)
                      (fun n => match n with
                                | O => 2147483648
                                | S _ => -4294967296
                                end) []))))
  = [-2147483648].
Proof. reflexivity. Qed.

(* ================================================================= *)
(** * Properties of the power rail and of the life cycle *)

(** C7. As long as the rail accepts the request made of it: with
    [power_invert] set, enabling a rail that is on leaves it off and
    disabling a rail that is off leaves it on; with [power_invert] clear,
    enabling leaves the rail on and disabling leaves it off. *)
Theorem regulator_polarity (p : panel_simple) (w : world) :
  (power_invert p = true -> rail_on (supply w) = true ->
   0 <= disable_err (supply w) ->
   rail_on (supply (snd (panel_simple_regulator_enable p w))) = false)
  /\ (power_invert p = true -> rail_on (supply w) = false ->
      0 <= enable_err (supply w) ->
      rail_on (supply (snd (panel_simple_regulator_disable p w))) = true)
  /\ (power_invert p = false ->
      0 <= enable_err (supply w) ->
      rail_on (supply (snd (panel_simple_regulator_enable p w))) = true)
  /\ (power_invert p = false ->
      0 <= disable_err (supply w) ->
      rail_on (supply (snd (panel_simple_regulator_disable p w))) = false).
Proof.
  unfold panel_simple_regulator_enable, panel_simple_regulator_disable.
  split; [|split; [|split]].
  1, 2: intros Hinv Hrail Hok.
  3, 4: intros Hinv Hok.
  all: apply Z.ltb_ge in Hok; rewrite Hinv;
    unfold bind, regulator_is_enabled, regulator_enable, regulator_disable,
      when, ret;
    try rewrite Hrail; cbn [Z.gtb Z.eqb Z.compare];
    rewrite Hok; reflexivity.
Qed.

(** C7, on an inverted and on a plain panel, with a rail that accepts
    every request. *)
Lemma regulator_polarity_witness :
  rail_on (supply (snd (panel_simple_regulator_enable
                          (panel_probed None None true)
                          (mk_world (rail true) host_ok [])))) = false
  /\ rail_on (supply (snd (panel_simple_regulator_disable
                             (panel_probed None None true)
                             (mk_world (rail false) host_ok [])))) = true
  /\ rail_on (supply (snd (panel_simple_regulator_enable
                             (panel_probed None None false)
                             (mk_world (rail false) host_ok [])))) = true
  /\ rail_on (supply (snd (panel_simple_regulator_disable
                             (panel_probed None None false)
                             (mk_world (rail true) host_ok [])))) = false.
Proof.
  assert (H0 : 0 <= 0) by lia.
  split; [|split; [|split]].
  - exact (proj1 (regulator_polarity (panel_probed None None true)
                    (mk_world (rail true) host_ok []))
             eq_refl eq_refl H0).
  - exact (proj1 (proj2 (regulator_polarity (panel_probed None None true)
                           (mk_world (rail false) host_ok [])))
             eq_refl eq_refl H0).
  - exact (proj1 (proj2 (proj2 (regulator_polarity
                                  (panel_probed None None false)
                                  (mk_world (rail false) host_ok []))))
             eq_refl H0).
  - exact (proj2 (proj2 (proj2 (regulator_polarity
                                  (panel_probed None None false)
                                  (mk_world (rail true) host_ok []))))
             eq_refl H0).
Defined.

(** C8. When the panel is not prepared and enabling the rail fails,
    [panel_simple_prepare] returns the error of the rail and leaves the
    panel as it was; the rail is as before, and all that happened is the
    refused request and its two log lines: no GPIO line is driven and no
    delay is slept. *)
Theorem prepare_rail_failure (p : panel_simple) (w : world) :
  prepared p = false ->
  fst (panel_simple_regulator_enable p w) < 0 ->
  let err := fst (panel_simple_regulator_enable p w) in
  panel_simple_prepare p w
  = (err, p,
     mk_world (supply w) (dsi_host w)
       (trace w ++ [EvRegulatorEnable err; EvLog (LogSupplyFailed err);
                    EvLog (LogSupplyFailed err)]))
  /\ gpio_events (trace (snd (panel_simple_prepare p w)))
     = gpio_events (trace w)
  /\ sleeps (trace (snd (panel_simple_prepare p w))) = sleeps (trace w).
Proof.
  intros Hprep Hfail. cbv zeta.
  assert (Hrun : panel_simple_prepare p w
           = (fst (panel_simple_regulator_enable p w), p,
              mk_world (supply w) (dsi_host w)
                (trace w ++
                   [EvRegulatorEnable (fst (panel_simple_regulator_enable p w));
                    EvLog (LogSupplyFailed
                             (fst (panel_simple_regulator_enable p w)));
                    EvLog (LogSupplyFailed
                             (fst (panel_simple_regulator_enable p w)))]))).
  { unfold panel_simple_prepare. rewrite Hprep.
    unfold panel_simple_regulator_enable in *.
    destruct (power_invert p).
    - (* inverted: the step cannot fail *)
      exfalso. revert Hfail.
      unfold bind, regulator_is_enabled, when, regulator_disable, ret.
      destruct (rail_on (supply w)); cbn [Z.gtb Z.compare];
        try destruct (disable_err (supply w) <? 0); cbn [fst]; lia.
    - revert Hfail.
      cbv beta zeta delta [bind regulator_enable dev_err emit ret].
      destruct (enable_err (supply w) <? 0) eqn:He.
      + intros _. cbn [fst]. rewrite He.
        cbn [fst supply dsi_host trace app]. rewrite He.
        cbn [supply dsi_host trace]. rewrite <- !app_assoc.
        reflexivity.
      + cbn. lia. }
  rewrite Hrun. cbn [snd trace].
  split; [reflexivity|].
  unfold gpio_events, sleeps. rewrite !filter_app. cbn [filter].
  now rewrite !app_nil_r.
Qed.

(** C8, for a rail that refuses with -110. *)
Lemma prepare_rail_failure_witness :
  panel_simple_prepare (panel_probed None None false)
    (mk_world rail_stuck host_ok [])
  = (-110, panel_probed None None false,
     mk_world rail_stuck host_ok
       [EvRegulatorEnable (-110); EvLog (LogSupplyFailed (-110));
        EvLog (LogSupplyFailed (-110))]).
Proof.
  refine (proj1 (prepare_rail_failure (panel_probed None None false)
                   (mk_world rail_stuck host_ok []) eq_refl _)).
  cbn. lia.
Defined.

(** C10. When the panel is not enabled, has an on-sequence and a DSI
    device, and the on-sequence holds a command of an unrecognized type,
    [panel_simple_enable] returns what the transmission returned, -EINVAL,
    and not 0; yet the panel it leaves behind has the enabled flag set
    (and nothing else changed), the failure being the last line logged. *)
Theorem enable_reports_send_error (p : panel_simple) (w : world)
  (oc : panel_cmds) :
  enabled p = false ->
  on_cmds p = Some oc ->
  dsi p = true ->
  forallb recognized (cmd_seq oc) = false ->
  let '(r, p', w') := panel_simple_enable p w in
  r = fst (panel_simple_dsi_send_cmds p (Some oc)
             (snd (delay_sleep p delay_enable w)))
  /\ r = - EINVAL
  /\ p' = set_enabled true p
  /\ enabled p' = true
  /\ exists tr, trace w' = tr ++ [EvLog LogOnCmdsFailed].
Proof.
  intros Hen Hon Hdsi Hrec. unfold panel_simple_enable.
  rewrite Hen, Hon, Hdsi. unfold bind at 1.
  destruct (delay_sleep p delay_enable w) as [u w1]. cbn [snd].
  unfold panel_simple_dsi_send_cmds, bind.
  rewrite send_loop_trace, Hrec. cbn [fst].
  cbn. repeat split. eexists. reflexivity.
Qed.

(** C10, for an on-sequence whose second command has type FF. *)
Lemma enable_reports_send_error_witness :
  let '(r, p', w') :=
    panel_simple_enable
      (panel_probed (Some cmds_with_unknown) None false)
      (mk_world (rail true) host_ok []) in
  r = -22 /\ enabled p' = true.
Proof.
  pose proof (enable_reports_send_error
                (panel_probed (Some cmds_with_unknown) None false)
                (mk_world (rail true) host_ok []) cmds_with_unknown
                eq_refl eq_refl eq_refl eq_refl) as H.
  cbn in H. cbn. destruct H as (_ & Hr & _ & He & _). split; assumption.
Defined.

(** ** The two flags *)

Ltac run_binds :=
  unfold bind;
  repeat match goal with
         | |- context [let (_, _) := ?c in _] => destruct c
         end.

Lemma disable_flags (p : panel_simple) (w : world) :
  snd (fst (panel_simple_disable p w))
  = if enabled p then set_enabled false p else p.
Proof.
  unfold panel_simple_disable. destruct (enabled p); cbn [negb].
  - run_binds. reflexivity.
  - reflexivity.
Qed.

Lemma enable_flags (p : panel_simple) (w : world) :
  snd (fst (panel_simple_enable p w))
  = if enabled p then p else set_enabled true p.
Proof.
  unfold panel_simple_enable. destruct (enabled p).
  - reflexivity.
  - run_binds. reflexivity.
Qed.

Lemma unprepare_flags (p : panel_simple) (w : world) :
  snd (fst (panel_simple_unprepare p w))
  = if prepared p then set_prepared false p else p.
Proof.
  unfold panel_simple_unprepare. destruct (prepared p); cbn [negb].
  - run_binds. reflexivity.
  - reflexivity.
Qed.

Lemma prepare_flags (p : panel_simple) (w : world) :
  snd (fst (panel_simple_prepare p w)) = p
  \/ snd (fst (panel_simple_prepare p w)) = set_prepared true p.
Proof.
  remember (snd (fst (panel_simple_prepare p w))) as q eqn:Hq. revert Hq.
  unfold panel_simple_prepare. destruct (prepared p); [now left|].
  unfold bind at 1. destruct (panel_simple_regulator_enable p w) as [err w1].
  destruct (err <? 0); run_binds; cbn; intros ->; auto.
Qed.

(** A call made in order keeps "enabled implies prepared". *)
Lemma run_call_invariant (c : call) (p : panel_simple) (w : world) :
  enabled_implies_prepared p ->
  in_order c p = true ->
  enabled_implies_prepared (snd (fst (run_call c p w))).
Proof.
  unfold enabled_implies_prepared. intros Hinv Hord.
  destruct c; cbn [run_call in_order] in *.
  - destruct (prepare_flags p w) as [-> | ->]; cbn; auto.
  - rewrite enable_flags. destruct (enabled p) eqn:E; cbn; auto.
  - rewrite disable_flags. destruct (enabled p) eqn:E; cbn; congruence.
  - rewrite unprepare_flags. apply negb_true_iff in Hord.
    destruct (prepared p) eqn:E; cbn; congruence.
Qed.

Lemma run_calls_invariant :
  forall (cs : list call) (p : panel_simple) (w : world),
    enabled_implies_prepared p ->
    calls_in_order cs p w = true ->
    enabled_implies_prepared (fst (run_calls cs p w)).
Proof.
  induction cs as [|c cs IH]; intros p w Hinv Hord; [exact Hinv|].
  cbn [calls_in_order run_calls] in *.
  apply andb_true_iff in Hord as [Hc Hrest].
  pose proof (run_call_invariant c p w Hinv Hc) as Hstep.
  destruct (run_call c p w) as [[r p1] w1]. cbn [fst snd] in Hstep.
  now apply IH.
Qed.

(** C2, as the code has it. From the state the probe leaves, every
    sequence of prepare, enable, disable and unprepare calls made in the
    order of the display framework (enable only while prepared, unprepare
    only while not enabled) ends in a state where enabled implies prepared.
    The driver does not keep the order itself: unprepare on a prepared
    panel clears the prepared flag and leaves the enabled flag as it is. *)
Theorem lifecycle_invariant_in_order :
  (forall (cs : list call) (p : panel_simple) (w : world),
      probed p ->
      calls_in_order cs p w = true ->
      enabled_implies_prepared (fst (run_calls cs p w)))
  /\ (forall (p : panel_simple) (w : world),
         prepared p = true ->
         prepared (snd (fst (panel_simple_unprepare p w))) = false
         /\ enabled (snd (fst (panel_simple_unprepare p w))) = enabled p).
Proof.
  split.
  - intros cs p w [Hen _] Hord. apply run_calls_invariant; [|exact Hord].
    unfold enabled_implies_prepared. congruence.
  - intros p w Hprep. rewrite unprepare_flags, Hprep. cbn. auto.
Qed.

(** C2, along prepare, enable, disable, unprepare on a probed panel. *)
Lemma lifecycle_invariant_in_order_witness :
  enabled_implies_prepared
    (fst (run_calls [Prepare; Enable; Disable; Unprepare]
            (panel_probed (Some cmds_sleep_out_display_on) None false)
            (mk_world (rail false) host_ok []))).
Proof.
  apply (proj1 lifecycle_invariant_in_order).
  - split; reflexivity.
  - reflexivity.
Defined.

(** C2 as stated fails. On a probed panel a lone enable sets the enabled
    flag while prepared is clear; and prepare, enable, unprepare ends with
    enabled set and prepared clear, not in Unprepared. *)
Lemma lifecycle_invariant_broken :
  let p0 := panel_probed None None false in
  let w0 := mk_world (rail false) host_ok [] in
  probed p0
  /\ ~ enabled_implies_prepared (fst (run_calls [Enable] p0 w0))
  /\ enabled (fst (run_calls [Prepare; Enable; Unprepare] p0 w0)) = true
  /\ prepared (fst (run_calls [Prepare; Enable; Unprepare] p0 w0)) = false.
Proof.
  cbv zeta. split; [split; reflexivity|].
  split; [|split; reflexivity].
  unfold enabled_implies_prepared. cbn. intros H.
  specialize (H eq_refl). discriminate H.
Qed.

(* ================================================================= *)
(** * Further properties of the parser *)

(** ** Records followed by more bytes *)

(** The scan walks over whole records as long as something follows them:
    after the records of [cs] it stands at the first byte of [suf] with
    [length suf] bytes left. *)
Lemma scan_serialize_prefix :
  forall (cs : list command) (pre suf : list u8) (fuel : nat) (cnt : Z),
    Forall fits cs ->
    suf <> [] ->
    Z.of_nat (length (serialize cs ++ suf)) < UINT_MODULUS ->
    scan_cmds (length cs + fuel) (pre ++ serialize cs ++ suf)
      (Z.of_nat (length pre)) (Z.of_nat (length (serialize cs ++ suf))) cnt
    = scan_cmds fuel (pre ++ serialize cs ++ suf)
        (Z.of_nat (length (pre ++ serialize cs))) (Z.of_nat (length suf))
        (cnt + Z.of_nat (length cs)).
Proof.
  induction cs as [|c cs IH]; intros pre suf fuel cnt Hfits Hsuf Hmax.
  - cbn [serialize flat_map app length Nat.add]. rewrite app_nil_r.
    now rewrite Z.add_0_r.
  - inversion Hfits as [|? ? Hc Hcs]; subst. unfold fits in Hc.
    assert (Hs : 0 < Z.of_nat (length suf))
      by (destruct suf; [congruence|cbn [length]; lia]).
    pose proof (serialize_length_cons c cs) as Hlen.
    rewrite length_app in Hmax.
    set (L := Z.of_nat (length (c_payload c))) in *.
    cbn [length Nat.add scan_cmds]. unfold sizeof_dchdr.
    rewrite !length_app.
    replace (Z.of_nat (length (serialize (c :: cs)) + length suf))
      with (3 + L + Z.of_nat (length (serialize cs)) + Z.of_nat (length suf))
      by lia.
    replace (_ >? 3) with true by (symmetry; lia).
    rewrite serialize_cons at 1. cbn [app].
    rewrite read_u8_app, read_u8_third by lia.
    fold L. rewrite u8_to_of_Z by lia.
    replace (L >? _) with false by (symmetry; lia).
    rewrite (to_uint_small (3 + L + _ + _ - 3)) by lia.
    rewrite (to_uint_small (3 + L + _ + _ - 3 - L)) by lia.
    replace (pre ++ serialize (c :: cs) ++ suf)
      with ((pre ++ serialize_cmd c) ++ serialize cs ++ suf)
      by (unfold serialize; cbn [flat_map]; now rewrite <- !app_assoc).
    replace (Z.of_nat (length pre) + 3 + L)
      with (Z.of_nat (length (pre ++ serialize_cmd c)))
      by (rewrite length_app; unfold serialize_cmd; cbn [length]; lia).
    replace (3 + L + Z.of_nat (length (serialize cs))
             + Z.of_nat (length suf) - 3 - L)
      with (Z.of_nat (length (serialize cs ++ suf)))
      by (rewrite length_app; lia).
    rewrite IH; auto; [|rewrite length_app; lia].
    f_equal.
    + rewrite !length_app. unfold serialize_cmd.
      pose proof (serialize_length_cons c cs). cbn [length] in *. lia.
    + cbn [length]. lia.
Qed.

Lemma scan_after_records (cs : list command) (suf : list u8) :
  Forall fits cs ->
  suf <> [] ->
  Z.of_nat (length (serialize cs ++ suf)) <= INT_MAX ->
  scan_cmds (S (length (serialize cs ++ suf))) (serialize cs ++ suf) 0
    (to_uint (Z.of_nat (length (serialize cs ++ suf)))) 0
  = scan_cmds (S (length (serialize cs ++ suf) - length cs))
      (serialize cs ++ suf) (Z.of_nat (length (serialize cs)))
      (Z.of_nat (length suf)) (Z.of_nat (length cs)).
Proof.
  intros Hfits Hsuf Hint.
  assert (Hmax : Z.of_nat (length (serialize cs ++ suf)) < UINT_MODULUS)
    by (unfold INT_MAX, UINT_MODULUS in *; lia).
  rewrite to_uint_small by lia.
  pose proof (serialize_length_ge cs) as Hge.
  assert (Hle : (length cs <= length (serialize cs ++ suf))%nat)
    by (rewrite length_app; lia).
  replace (S (length (serialize cs ++ suf)))
    with (length cs + S (length (serialize cs ++ suf) - length cs))%nat by lia.
  exact (scan_serialize_prefix cs [] suf _ 0 Hfits Hsuf Hmax).
Qed.

Lemma hd_error_read (b : list u8) :
  read_u8 b 0 = hd_error b.
Proof. now destruct b. Qed.

(** Whole records followed by one to three more bytes are rejected through
    the trailing-bytes branch, whatever those bytes are: one, two or three
    bytes never count as a record. *)
Theorem parse_cmds_trailing_bytes (mm : allocator) (pc_in : panel_cmds)
  (cs : list command) (suf : list u8) :
  kmemdup_fails mm = false ->
  Forall fits cs ->
  (1 <= length suf <= 3)%nat ->
  Z.of_nat (length (serialize cs ++ suf)) <= INT_MAX ->
  exists b0,
    hd_error (serialize cs ++ suf) = Some b0 /\
    panel_simple_parse_cmds mm (serialize cs ++ suf) (Some pc_in)
    = Some (Returned (- EINVAL) (Some pc_in)
              [LogParseTrailer b0 (Z.of_nat (length (serialize cs ++ suf)))]).
Proof.
  intros Hdup Hfits Hlen Hint.
  assert (Hsuf : suf <> []) by (destruct suf; [cbn in Hlen; lia|discriminate]).
  unfold panel_simple_parse_cmds. rewrite Hdup.
  rewrite (scan_after_records cs suf Hfits Hsuf Hint).
  cbn [scan_cmds]. unfold sizeof_dchdr.
  replace (Z.of_nat (length suf) >? 3) with false by (symmetry; lia).
  replace (Z.of_nat (length suf) =? 0) with false by (symmetry; lia).
  cbn [negb]. rewrite hd_error_read.
  destruct (serialize cs ++ suf) as [|b0 rest] eqn:Hdata.
  - apply app_eq_nil in Hdata. destruct Hdata; contradiction.
  - exists b0. split; reflexivity.
Qed.

Lemma parse_cmds_trailing_bytes_witness :
  exists b0,
    hd_error [x05; x00; x01; x29; xaa] = Some b0 /\
    panel_simple_parse_cmds alloc_ok [x05; x00; x01; x29; xaa]
      (Some pcmds_zero)
    = Some (Returned (- EINVAL) (Some pcmds_zero) [LogParseTrailer b0 5]).
Proof.
  refine (parse_cmds_trailing_bytes alloc_ok pcmds_zero
            [mk_command x05 x00 [x29]] [xaa] eq_refl _ _ _).
  - repeat constructor.
  - cbn. lia.
  - vm_compute. discriminate.
Defined.

Lemma read_dlen_after_records (cs : list command) (t w d : u8)
  (tail : list u8) :
  read_u8 (serialize cs ++ t :: w :: d :: tail)
    (Z.of_nat (length (serialize cs)) + 2) = Some d.
Proof. rewrite read_u8_app by lia. apply read_u8_third. Qed.

(** A record that declares more payload than header and payload bytes are
    left together (the payload overruns the buffer by more than three
    bytes) is rejected with the length error, provided at least one byte
    follows its header. *)
Theorem parse_cmds_length_error (mm : allocator) (pc_in : panel_cmds)
  (cs : list command) (t w d : u8) (tail : list u8) :
  kmemdup_fails mm = false ->
  Forall fits cs ->
  tail <> [] ->
  3 + Z.of_nat (length tail) < u8_to_Z d ->
  Z.of_nat (length (serialize cs ++ t :: w :: d :: tail)) <= INT_MAX ->
  panel_simple_parse_cmds mm (serialize cs ++ t :: w :: d :: tail)
    (Some pc_in)
  = Some (Returned (- EINVAL) (Some pc_in) [LogParseLen (u8_to_Z d)]).
Proof.
  intros Hdup Hfits Htail Hover Hint.
  unfold panel_simple_parse_cmds. rewrite Hdup.
  rewrite (scan_after_records cs _ Hfits) by (discriminate || assumption).
  assert (Ht : 0 < Z.of_nat (length tail))
    by (destruct tail; [congruence|cbn [length]; lia]).
  assert (Hl : Z.of_nat (length (t :: w :: d :: tail))
               = 3 + Z.of_nat (length tail)) by (cbn [length]; lia).
  cbn [scan_cmds]. unfold sizeof_dchdr. rewrite Hl.
  replace (_ >? 3) with true by (symmetry; lia).
  rewrite read_dlen_after_records.
  replace (u8_to_Z d >? _) with true by (symmetry; lia).
  reflexivity.
Qed.

Lemma parse_cmds_length_error_witness :
  panel_simple_parse_cmds alloc_ok [x05; x00; x01; x29; x39; x00; x09; xb0]
    (Some pcmds_zero)
  = Some (Returned (- EINVAL) (Some pcmds_zero) [LogParseLen 9]).
Proof.
  refine (parse_cmds_length_error alloc_ok pcmds_zero
            [mk_command x05 x00 [x29]] x39 x00 x09 [xb0] eq_refl _ _ _ _).
  - repeat constructor.
  - discriminate.
  - vm_compute. reflexivity.
  - vm_compute. discriminate.
Defined.

(** A record whose payload overruns the buffer by one, two or three bytes
    is not rejected: after any whole records before it, the scan passes
    its length check and then reads the length byte of a header that would
    start behind the overrunning payload, outside the buffer. *)
Theorem parse_cmds_overrun_fault (mm : allocator) (pc_in : panel_cmds)
  (cs : list command) (t w d : u8) (tail : list u8) :
  kmemdup_fails mm = false ->
  Forall fits cs ->
  tail <> [] ->
  Z.of_nat (length tail) < u8_to_Z d <= 3 + Z.of_nat (length tail) ->
  Z.of_nat (length (serialize cs ++ t :: w :: d :: tail)) <= INT_MAX ->
  panel_simple_parse_cmds mm (serialize cs ++ t :: w :: d :: tail)
    (Some pc_in)
  = Some (Faulted (Z.of_nat (length (serialize cs)) + 3 + u8_to_Z d + 2))
  /\ Z.of_nat (length (serialize cs ++ t :: w :: d :: tail))
     <= Z.of_nat (length (serialize cs)) + 3 + u8_to_Z d + 2.
Proof.
  intros Hdup Hfits Htail Hover Hint.
  assert (Ht : 0 < Z.of_nat (length tail))
    by (destruct tail; [congruence|cbn [length]; lia]).
  split; [|rewrite length_app; cbn [length] in *; lia].
  unfold panel_simple_parse_cmds. rewrite Hdup.
  rewrite (scan_after_records cs _ Hfits) by (discriminate || assumption).
  pose proof (serialize_length_ge cs) as Hge.
  replace (S (length (serialize cs ++ t :: w :: d :: tail) - length cs))
    with (S (S (length (serialize cs) - length cs + 2 + length tail)))
    by (rewrite length_app; cbn [length]; lia).
  assert (Hl : Z.of_nat (length (t :: w :: d :: tail))
               = 3 + Z.of_nat (length tail)) by (cbn [length]; lia).
  rewrite length_app in Hint.
  rewrite (scan_cmds_overlong_payload _ _ _ _ _ d); unfold sizeof_dchdr;
    rewrite ?Hl; try reflexivity; try lia.
  - rewrite length_app. lia.
  - unfold INT_MAX, UINT_MODULUS in *. lia.
  - apply read_dlen_after_records.
Qed.

Lemma parse_cmds_overrun_fault_witness :
  panel_simple_parse_cmds alloc_ok [x05; x00; x01; x29; x39; x00; x04; xb0]
    (Some pcmds_zero)
  = Some (Faulted 13).
Proof.
  refine (proj1 (parse_cmds_overrun_fault alloc_ok pcmds_zero
                   [mk_command x05 x00 [x29]] x39 x00 x04 [xb0]
                   eq_refl _ _ _ _)).
  - repeat constructor.
  - discriminate.
  - vm_compute. split; [reflexivity|discriminate].
  - vm_compute. discriminate.
Defined.

(** ** What a successful parse stores *)

Section Slices.

Context {A : Type}.

Lemma firstn_plus (n m : nat) :
  forall l : list A, firstn (n + m) l = firstn n l ++ firstn m (skipn n l).
Proof.
  induction n as [|n IH]; intros [|x l]; cbn [Nat.add firstn skipn app];
    try reflexivity.
  - now rewrite firstn_nil.
  - now rewrite IH.
Qed.

Lemma skipn_nth_error (n : nat) :
  forall (l : list A) (x : A),
    nth_error l n = Some x -> skipn n l = x :: skipn (S n) l.
Proof.
  induction n as [|n IH]; intros [|y l] x H; cbn in H; try discriminate.
  - now injection H as ->.
  - cbn [skipn]. now apply IH.
Qed.

End Slices.

Lemma u8_of_to_Z (b : u8) : u8_of_Z (u8_to_Z b) = b.
Proof.
  unfold u8_of_Z, u8_to_Z. rewrite N2Z.id. now rewrite Byte.of_to_N.
Qed.

Lemma total_size_nonneg (cs : list cmd_desc) : 0 <= total_size cs.
Proof.
  induction cs as [|c cs IH]; [apply Z.le_refl|].
  unfold total_size in *. cbn [map fold_right]. unfold record_size at 1.
  pose proof (u8_to_Z_range (dlen (dchdr c))). unfold sizeof_dchdr. lia.
Qed.

Lemma total_size_cons (c : cmd_desc) (cs : list cmd_desc) :
  total_size (c :: cs) = 3 + u8_to_Z (dlen (dchdr c)) + total_size cs.
Proof. reflexivity. Qed.

Lemma read_u8_skipn (b : list u8) (off : Z) (x : u8) :
  read_u8 b off = Some x ->
  skipn (Z.to_nat off) b = x :: skipn (S (Z.to_nat off)) b.
Proof.
  unfold read_u8. destruct (off <? 0); [discriminate|].
  apply skipn_nth_error.
Qed.

(** The three bytes of a header read at [bp] are the next three bytes of
    the buffer. *)
Lemma read_hdr_skipn (b : list u8) (bp : Z) (h : cmd_ctrl_hdr) :
  0 <= bp ->
  read_hdr b bp = Some h ->
  skipn (Z.to_nat bp) b
  = dtype h :: wait h :: dlen h :: skipn (Z.to_nat (bp + 3)) b.
Proof.
  intros Hbp. unfold read_hdr.
  destruct (read_u8 b bp) as [t|] eqn:Ht; [|discriminate].
  destruct (read_u8 b (bp + 1)) as [w|] eqn:Hw; [|discriminate].
  destruct (read_u8 b (bp + 2)) as [l|] eqn:Hl; [|discriminate].
  intros [= <-]. cbn [dtype wait dlen].
  apply read_u8_skipn in Ht, Hw, Hl.
  replace (Z.to_nat (bp + 1)) with (S (Z.to_nat bp)) in * by lia.
  replace (Z.to_nat (bp + 2)) with (S (S (Z.to_nat bp))) in * by lia.
  replace (Z.to_nat (bp + 3)) with (S (S (S (Z.to_nat bp)))) by lia.
  now rewrite Ht, Hw, Hl.
Qed.

(** Where the second pass puts the payload pointers: each behind its
    header, the records one after the other from [bp] on. *)
Lemma fill_cmds_layout (b : list u8) :
  forall (n : nat) (bp len : Z) (cs : list cmd_desc),
    fill_cmds n b bp len = inl cs ->
    Forall (fun c => bp + 3 <= payload c
                     /\ payload c + u8_to_Z (dlen (dchdr c))
                        <= bp + total_size cs) cs.
Proof.
  induction n as [|n IH]; intros bp len cs Hfill; cbn [fill_cmds] in Hfill.
  - injection Hfill as <-. constructor.
  - destruct (read_hdr b bp) as [h|]; [|discriminate].
    destruct (fill_cmds n b _ _) as [cs'|] eqn:Hrest; [|discriminate].
    injection Hfill as <-. apply IH in Hrest.
    pose proof (total_size_nonneg cs') as Hpos.
    pose proof (u8_to_Z_range (dlen h)) as Hd.
    rewrite total_size_cons. cbn [dchdr]. unfold sizeof_dchdr in *.
    constructor; [cbn [payload dchdr]; lia|].
    eapply Forall_impl; [|exact Hrest]. cbn beta. intros c Hc. lia.
Qed.

(** Writing the parsed commands back gives the bytes the second pass
    walked over. *)
Lemma fill_cmds_serialize (pc : panel_cmds) :
  forall (n : nat) (bp len : Z) (cs : list cmd_desc),
    0 <= bp ->
    fill_cmds n (buf pc) bp len = inl cs ->
    bp + total_size cs <= Z.of_nat (length (buf pc)) ->
    serialize (map (command_of pc) cs)
    = firstn (Z.to_nat (total_size cs)) (skipn (Z.to_nat bp) (buf pc)).
Proof.
  induction n as [|n IH]; intros bp len cs Hbp Hfill Hin;
    cbn [fill_cmds] in Hfill.
  - injection Hfill as <-. reflexivity.
  - destruct (read_hdr (buf pc) bp) as [h|] eqn:Hh; [|discriminate].
    destruct (fill_cmds n (buf pc) _ _) as [cs'|] eqn:Hrest; [|discriminate].
    injection Hfill as <-.
    pose proof (total_size_nonneg cs') as Hpos.
    pose proof (u8_to_Z_range (dlen h)) as Hd.
    rewrite total_size_cons in *. cbn [dchdr] in *. unfold sizeof_dchdr in *.
    apply IH in Hrest; [|lia|lia].
    cbn [map]. rewrite serialize_cons, Hrest.
    unfold command_of at 1 2 3. cbn [c_type c_wait c_payload].
    unfold cmd_payload. cbn [dchdr payload].
    rewrite (read_hdr_skipn _ _ _ Hbp Hh).
    replace (Z.to_nat (3 + u8_to_Z (dlen h) + total_size cs'))
      with (S (S (S (Z.to_nat (u8_to_Z (dlen h))
                     + Z.to_nat (total_size cs'))))) by lia.
    cbn [firstn]. rewrite firstn_plus, skipn_skipn.
    assert (Hq : (Z.to_nat (u8_to_Z (dlen h))
                  <= length (buf pc) - Z.to_nat (bp + 3))%nat) by lia.
    rewrite length_firstn, length_skipn, (Nat.min_l _ _ Hq).
    rewrite (Z2Nat.id _ (proj1 Hd)), u8_of_to_Z.
    replace (Z.to_nat (u8_to_Z (dlen h)) + Z.to_nat (bp + 3))%nat
      with (Z.to_nat (bp + 3 + u8_to_Z (dlen h))) by lia.
    reflexivity.
Qed.

(** What the parser has done when it returns 0: it kept the buffer, and
    the commands it stored are those the second pass reads from offset 0,
    which take up the whole buffer. *)
Lemma parse_cmds_success (mm : allocator) (data : list u8)
  (pcmds : option panel_cmds) (pc : panel_cmds) (log : list log_msg) :
  Z.of_nat (length data) <= INT_MAX ->
  panel_simple_parse_cmds mm data pcmds = Some (Returned 0 (Some pc) log) ->
  buf pc = data
  /\ cmd_seq pc = cmds pc
  /\ total_size (cmds pc) = Z.of_nat (length data)
  /\ exists n len, fill_cmds n data 0 len = inl (cmds pc).
Proof.
  intros Hint Hparse. unfold panel_simple_parse_cmds in Hparse.
  destruct pcmds as [pc_in|]; [|discriminate].
  destruct (kmemdup_fails mm); [discriminate|].
  rewrite to_uint_small in Hparse
    by (unfold INT_MAX, UINT_MODULUS in *; lia).
  destruct (scan_cmds _ _ _ _ _) as [[len cnt|dl|off]|] eqn:Hscan;
    try discriminate.
  destruct (len =? 0) eqn:Hzero; cbn [negb] in Hparse;
    [|destruct (read_u8 data 0); discriminate].
  apply Z.eqb_eq in Hzero. subst len.
  destruct (kcalloc_fails mm); [discriminate|].
  apply scan_end_fill in Hscan;
    [|lia|unfold INT_MAX, UINT_MODULUS in *; lia|lia].
  destruct Hscan as (_ & cs & Hfill & Hsize & Hlength).
  rewrite Z.sub_0_r in Hfill, Hlength. rewrite Hfill in Hparse.
  injection Hparse as <- <-.
  unfold cmd_seq. cbn [cmds cmd_cnt buf blen].
  rewrite (firstn_length_all cs cnt Hlength). eauto 6.
Qed.

(** Decoding then encoding: when the parser returns 0 for a buffer, writing
    the parsed commands back as records gives that buffer, byte for
    byte. *)
Theorem parse_cmds_serialize_back (mm : allocator) (data : list u8)
  (pcmds : option panel_cmds) (pc : panel_cmds) (log : list log_msg) :
  Z.of_nat (length data) <= INT_MAX ->
  panel_simple_parse_cmds mm data pcmds = Some (Returned 0 (Some pc) log) ->
  serialize (commands_of pc) = data.
Proof.
  intros Hint Hparse.
  destruct (parse_cmds_success mm data pcmds pc log Hint Hparse)
    as (Hbuf & Hseq & Hsize & n & len & Hfill).
  unfold commands_of. rewrite Hseq. rewrite <- Hbuf in Hfill.
  rewrite (fill_cmds_serialize pc n 0 len (cmds pc)); try assumption;
    try lia.
  - rewrite Hsize, Hbuf, Nat2Z.id. cbn [Z.to_nat skipn]. apply firstn_all.
  - rewrite Hsize, Hbuf. lia.
Qed.

Lemma parse_cmds_serialize_back_witness :
  serialize
    (commands_of
       (mk_panel_cmds [x05; x78; x01; x11; x39; x00; x02; xb0; x04] 9
          [mk_cmd_desc (mk_hdr x05 x78 x01) 3;
           mk_cmd_desc (mk_hdr x39 x00 x02) 7] 2))
  = [x05; x78; x01; x11; x39; x00; x02; xb0; x04].
Proof.
  refine (parse_cmds_serialize_back alloc_ok
            [x05; x78; x01; x11; x39; x00; x02; xb0; x04]
            (Some pcmds_zero) _ [] _ _).
  - vm_compute. discriminate.
  - reflexivity.
Defined.

(** When the parser returns 0, every payload pointer it stored lies behind
    a header and its [dlen] bytes end inside the buffer, so that the bytes
    it designates are exactly [dlen] many. *)
Theorem parse_cmds_payloads_in_buffer (mm : allocator) (data : list u8)
  (pcmds : option panel_cmds) (pc : panel_cmds) (log : list log_msg) :
  Z.of_nat (length data) <= INT_MAX ->
  panel_simple_parse_cmds mm data pcmds = Some (Returned 0 (Some pc) log) ->
  Forall (fun c =>
            3 <= payload c
            /\ payload c + u8_to_Z (dlen (dchdr c)) <= Z.of_nat (length data)
            /\ Z.of_nat (length (cmd_payload pc c)) = u8_to_Z (dlen (dchdr c)))
    (cmd_seq pc).
Proof.
  intros Hint Hparse.
  destruct (parse_cmds_success mm data pcmds pc log Hint Hparse)
    as (Hbuf & Hseq & Hsize & n & len & Hfill).
  rewrite Hseq. apply fill_cmds_layout in Hfill.
  eapply Forall_impl; [|exact Hfill]. cbn beta.
  intros c [Hlo Hhi]. rewrite Hsize in Hhi.
  pose proof (u8_to_Z_range (dlen (dchdr c))) as Hd.
  repeat split; try lia.
  unfold cmd_payload. rewrite length_firstn, length_skipn, Hbuf. lia.
Qed.

Lemma parse_cmds_payloads_in_buffer_witness :
  Forall (fun c =>
            3 <= payload c
            /\ payload c + u8_to_Z (dlen (dchdr c)) <= 9
            /\ Z.of_nat
                 (length
                    (cmd_payload
                       (mk_panel_cmds
                          [x05; x78; x01; x11; x39; x00; x02; xb0; x04] 9
                          [mk_cmd_desc (mk_hdr x05 x78 x01) 3;
                           mk_cmd_desc (mk_hdr x39 x00 x02) 7] 2) c))
               = u8_to_Z (dlen (dchdr c)))
    [mk_cmd_desc (mk_hdr x05 x78 x01) 3; mk_cmd_desc (mk_hdr x39 x00 x02) 7].
Proof.
  refine (parse_cmds_payloads_in_buffer alloc_ok
            [x05; x78; x01; x11; x39; x00; x02; xb0; x04]
            (Some pcmds_zero) _ [] _ _).
  - vm_compute. discriminate.
  - reflexivity.
Defined.

(** The parser returns 0, -EINVAL or -ENOMEM, and a return other than 0
    never stores a sequence: buffer, length and count of [*pcmds] are as
    they were, and the command array is as it was or NULL. *)
Theorem parse_cmds_error_stores_nothing (mm : allocator) (data : list u8)
  (pc_in pc : panel_cmds) (r : Z) (log : list log_msg) :
  panel_simple_parse_cmds mm data (Some pc_in)
  = Some (Returned r (Some pc) log) ->
  r <> 0 ->
  (r = - EINVAL \/ r = - ENOMEM)
  /\ buf pc = buf pc_in
  /\ blen pc = blen pc_in
  /\ cmd_cnt pc = cmd_cnt pc_in
  /\ (cmds pc = cmds pc_in \/ cmds pc = []).
Proof.
  unfold panel_simple_parse_cmds. intros Hparse Hr.
  destruct (kmemdup_fails mm).
  - injection Hparse as <- <- <-. auto 6.
  - destruct (scan_cmds _ _ _ _ _) as [[len cnt|dl|off]|];
      try discriminate.
    + destruct (negb (len =? 0)).
      * destruct (read_u8 data 0); [|discriminate].
        injection Hparse as <- <- <-. auto 6.
      * destruct (kcalloc_fails mm).
        -- injection Hparse as <- <- <-. cbn. auto 6.
        -- destruct (fill_cmds _ _ _ _); [|discriminate].
           injection Hparse as <- <- <-. congruence.
    + injection Hparse as <- <- <-. auto 6.
Qed.

Lemma parse_cmds_error_stores_nothing_witness :
  (- EINVAL = - EINVAL \/ - EINVAL = - ENOMEM)
  /\ buf pcmds_zero = buf pcmds_zero
  /\ blen pcmds_zero = blen pcmds_zero
  /\ cmd_cnt pcmds_zero = cmd_cnt pcmds_zero
  /\ (cmds pcmds_zero = cmds pcmds_zero \/ cmds pcmds_zero = []).
Proof.
  refine (parse_cmds_error_stores_nothing alloc_ok [x05; x00; x00]
            pcmds_zero pcmds_zero (- EINVAL) [LogParseTrailer x05 3] _ _).
  - reflexivity.
  - discriminate.
Defined.

(* ================================================================= *)
(** * Further properties of the life cycle *)

(** ** Running the steps *)

Lemma bind_run {A B} (c : M A) (k : A -> M B) (w : world) :
  bind c k w = k (fst (c w)) (snd (c w)).
Proof. unfold bind. now destruct (c w). Qed.

Lemma add_events_nil (w : world) : add_events w [] = w.
Proof. destruct w. unfold add_events. cbn. now rewrite app_nil_r. Qed.

Lemma add_events_app (w : world) (e1 e2 : list event) :
  add_events (add_events w e1) e2 = add_events w (e1 ++ e2).
Proof. unfold add_events. cbn. now rewrite app_assoc. Qed.

Lemma gpio_run (b : bool) (line : gpio_line) (v : Z) (w : world) :
  when b (gpiod_direction_output line v) w
  = (tt, add_events w (gpio_event b line v)).
Proof.
  destruct b; cbn; [reflexivity|]. now rewrite add_events_nil.
Qed.

Lemma delay_sleep_run (p : panel_simple) (field : panel_desc -> Z)
  (w : world) :
  delay_sleep p field w = (tt, add_events w (delay_events p field)).
Proof.
  unfold delay_sleep, delay_events. destruct (desc p) as [d|].
  - destruct (field d =? 0); cbn [negb when].
    + unfold ret. now rewrite add_events_nil.
    + now rewrite panel_simple_sleep_emit.
  - unfold ret. now rewrite add_events_nil.
Qed.

Lemma dsi_writes_delay_events (p : panel_simple) (field : panel_desc -> Z) :
  dsi_writes (delay_events p field) = [].
Proof.
  unfold delay_events. destruct (desc p) as [d|]; [|reflexivity].
  destruct (field d =? 0); [reflexivity|apply dsi_writes_sleep_event].
Qed.

(** Sending a sequence, if there is one and a device for it. *)
Lemma sequence_run (p : panel_simple) (cmds : option panel_cmds)
  (failed : log_msg) (w : world) :
  match cmds with
  | Some oc =>
      bind (if dsi p then panel_simple_dsi_send_cmds p (Some oc) else ret 0)
        (fun err => bind (when (negb (err =? 0)) (dev_err failed))
                      (fun _ => ret err))
  | None => ret 0
  end w
  = (sequence_ret p cmds, add_events w (sequence_events p cmds failed w)).
Proof.
  unfold sequence_ret, sequence_events. destruct cmds as [oc|].
  - rewrite bind_run. destruct (dsi p).
    + unfold panel_simple_dsi_send_cmds. rewrite send_loop_trace.
      cbn [fst snd]. fold (add_events w
        (send_events oc (dsi_host w) (length (dsi_writes (trace w)))
           (cmd_seq oc))).
      destruct (forallb recognized (cmd_seq oc)); cbn.
      * now rewrite app_nil_r.
      * unfold add_events. cbn. now rewrite app_assoc.
    + cbn. now rewrite add_events_nil.
  - unfold ret. now rewrite add_events_nil.
Qed.

(** The rail steps only talk to the rail and the log. *)
Lemma regulator_step_world (p : panel_simple) (w : world) :
  (exists evs,
      snd (panel_simple_regulator_enable p w)
      = mk_world (supply (snd (panel_simple_regulator_enable p w)))
          (dsi_host w) (trace w ++ evs)
      /\ gpio_events evs = [] /\ sleeps evs = [] /\ dsi_sent evs = []
      /\ dsi_writes evs = [])
  /\ (exists evs,
         snd (panel_simple_regulator_disable p w)
         = mk_world (supply (snd (panel_simple_regulator_disable p w)))
             (dsi_host w) (trace w ++ evs)
         /\ gpio_events evs = [] /\ sleeps evs = [] /\ dsi_sent evs = []
         /\ dsi_writes evs = []).
Proof.
  unfold panel_simple_regulator_enable, panel_simple_regulator_disable.
  split; destruct (power_invert p);
    cbv beta zeta delta [bind regulator_is_enabled regulator_enable
                           regulator_disable when dev_err emit ret];
    destruct (rail_on (supply w)); cbn [Z.gtb Z.eqb Z.compare];
    try destruct (enable_err (supply w) <? 0) eqn:He;
    try destruct (disable_err (supply w) <? 0) eqn:Hd;
    cbn [fst snd supply dsi_host trace]; rewrite ?He, ?Hd;
    cbn [fst snd supply dsi_host trace];
    rewrite <- ?app_assoc;
    try (eexists; split; [reflexivity|repeat split; reflexivity]);
    exists []; rewrite app_nil_r; destruct w; repeat split; reflexivity.
Qed.

Lemma sequence_run_unit (p : panel_simple) (cmds : option panel_cmds)
  (failed : log_msg) (w : world) :
  match cmds with
  | Some oc =>
      bind (if dsi p then panel_simple_dsi_send_cmds p (Some oc) else ret 0)
        (fun err => when (negb (err =? 0)) (dev_err failed))
  | None => ret tt
  end w
  = (tt, add_events w (sequence_events p cmds failed w)).
Proof.
  pose proof (sequence_run p cmds failed w) as H.
  destruct cmds as [oc|];
    [|unfold ret, sequence_events; now rewrite add_events_nil].
  rewrite bind_run in H. rewrite bind_run in H. rewrite bind_run.
  cbn [fst snd ret] in H.
  destruct (when _ _ _) as [[] w1]. cbn [snd] in H. now inversion H.
Qed.

Lemma sequence_events_after_delay (p : panel_simple)
  (cmds : option panel_cmds) (failed : log_msg) (w : world)
  (field : panel_desc -> Z) :
  sequence_events p cmds failed (add_events w (delay_events p field))
  = sequence_events p cmds failed w.
Proof.
  unfold sequence_events, add_events. cbn [dsi_host trace].
  now rewrite dsi_writes_app, dsi_writes_delay_events, app_nil_r.
Qed.

Lemma disable_run (p : panel_simple) (w : world) :
  enabled p = true ->
  panel_simple_disable p w
  = (0, set_enabled false p, add_events w (delay_events p delay_disable)).
Proof.
  intros He. unfold panel_simple_disable. rewrite He. cbn [negb].
  now rewrite bind_run, delay_sleep_run.
Qed.

Lemma enable_run (p : panel_simple) (w : world) :
  enabled p = false ->
  panel_simple_enable p w
  = (sequence_ret p (on_cmds p), set_enabled true p,
     add_events w (delay_events p delay_enable
                   ++ sequence_events p (on_cmds p) LogOnCmdsFailed w)).
Proof.
  intros He. unfold panel_simple_enable. rewrite He.
  rewrite bind_run, delay_sleep_run. cbn [fst snd].
  rewrite bind_run, sequence_run. cbn [fst snd]. unfold ret.
  now rewrite sequence_events_after_delay, add_events_app.
Qed.

Lemma prepare_run (p : panel_simple) (w : world) :
  prepared p = false ->
  panel_simple_prepare p w
  = let rw := panel_simple_regulator_enable p w in
    if fst rw <? 0 then
      (fst rw, p, add_events (snd rw) [EvLog (LogSupplyFailed (fst rw))])
    else (0, set_prepared true p, add_events (snd rw) (prepare_events p)).
Proof.
  intros Hp. unfold panel_simple_prepare. rewrite Hp. cbv zeta.
  rewrite bind_run. destruct (fst (panel_simple_regulator_enable p w) <? 0).
  - now rewrite bind_run.
  - repeat (rewrite bind_run; rewrite ?gpio_run, ?delay_sleep_run;
            cbn [fst snd]).
    unfold ret, prepare_events. now rewrite !add_events_app.
Qed.

Lemma unprepare_run (p : panel_simple) (w : world) :
  prepared p = true ->
  panel_simple_unprepare p w
  = (0, set_prepared false p,
     add_events
       (snd (panel_simple_regulator_disable p
               (add_events w
                  (sequence_events p (off_cmds p) LogOffCmdsFailed w
                   ++ gpio_event (reset_gpio p) ResetGpio
                        (lnot (reset_level p))
                   ++ gpio_event (enable_gpio p) EnableGpio 0))))
       (delay_events p delay_unprepare)).
Proof.
  intros Hp. unfold panel_simple_unprepare. rewrite Hp. cbn [negb].
  rewrite bind_run, sequence_run_unit. cbn [fst snd].
  repeat (rewrite bind_run; rewrite ?gpio_run, ?delay_sleep_run;
          cbn [fst snd]).
  unfold ret. now rewrite !add_events_app.
Qed.

Lemma shutdown_run (p : panel_simple) (w : world) :
  panel_simple_shutdown p w
  = let p1 := if enabled p then set_enabled false p else p in
    let w1 := if enabled p
              then add_events w (delay_events p delay_disable) else w in
    if prepared p then
      (p1, snd (panel_simple_regulator_disable p1
                  (add_events w1
                     (gpio_event (reset_gpio p) ResetGpio
                        (lnot (reset_level p))
                      ++ gpio_event (enable_gpio p) EnableGpio 0))))
    else (p1, w1).
Proof.
  unfold panel_simple_shutdown. rewrite bind_run. cbv zeta.
  destruct (enabled p) eqn:He.
  - rewrite (disable_run p w He). cbn [fst snd set_enabled prepared].
    destruct (prepared p); [|reflexivity].
    repeat (rewrite bind_run; rewrite ?gpio_run; cbn [fst snd]).
    unfold ret. cbn [reset_gpio enable_gpio reset_level].
    now rewrite !add_events_app.
  - unfold panel_simple_disable. rewrite He. cbn [negb ret fst snd].
    destruct (prepared p); [|reflexivity].
    repeat (rewrite bind_run; rewrite ?gpio_run; cbn [fst snd]).
    unfold ret. now rewrite !add_events_app.
Qed.

(** ** Reading the traces of the steps *)

Section Projections.

Lemma gpio_events_app (t1 t2 : list event) :
  gpio_events (t1 ++ t2) = gpio_events t1 ++ gpio_events t2.
Proof. apply filter_app. Qed.

Lemma rail_requests_app (t1 t2 : list event) :
  rail_requests (t1 ++ t2) = rail_requests t1 ++ rail_requests t2.
Proof. apply filter_app. Qed.

Lemma delay_events_projections (p : panel_simple) (field : panel_desc -> Z) :
  gpio_events (delay_events p field) = []
  /\ rail_requests (delay_events p field) = []
  /\ dsi_sent (delay_events p field) = []
  /\ sleeps (delay_events p field) = delay_events p field.
Proof.
  unfold delay_events. destruct (desc p) as [d|]; [|now cbn].
  destruct (field d =? 0); [now cbn|].
  unfold sleep_event. destruct (field d >? 20); now cbn.
Qed.

Lemma gpio_event_projections (b : bool) (line : gpio_line) (v : Z) :
  gpio_events (gpio_event b line v) = gpio_event b line v
  /\ rail_requests (gpio_event b line v) = []
  /\ dsi_sent (gpio_event b line v) = []
  /\ sleeps (gpio_event b line v) = [].
Proof. destruct b; now cbn. Qed.

Lemma cmd_events_no_lines (pc : panel_cmds) (c : cmd_desc)
  (k : write_class) (r : Z) :
  gpio_events (cmd_events pc c k r) = []
  /\ rail_requests (cmd_events pc c k r) = [].
Proof.
  unfold cmd_events, sleep_event.
  destruct (to_int r <? 0), (u8_to_Z (wait (dchdr c)) =? 0),
    (u8_to_Z (wait (dchdr c)) >? 20); now cbn.
Qed.

Lemma send_events_no_lines (pc : panel_cmds) (host : nat -> Z) :
  forall (cs : list cmd_desc) (n : nat),
    gpio_events (send_events pc host n cs) = []
    /\ rail_requests (send_events pc host n cs) = [].
Proof.
  induction cs as [|c cs IH]; intros n; [now cbn|].
  cbn [send_events]. destruct (cmd_class c) as [k|]; [|now cbn].
  rewrite gpio_events_app, rail_requests_app.
  destruct (cmd_events_no_lines pc c k (host n)) as [-> ->].
  exact (IH (S n)).
Qed.

Lemma sequence_events_no_lines (p : panel_simple) (cmds : option panel_cmds)
  (failed : log_msg) (w : world) :
  gpio_events (sequence_events p cmds failed w) = []
  /\ rail_requests (sequence_events p cmds failed w) = [].
Proof.
  unfold sequence_events. destruct cmds as [oc|]; [|now cbn].
  destruct (dsi p); [|now cbn].
  rewrite gpio_events_app, rail_requests_app.
  destruct (send_events_no_lines oc (dsi_host w) (cmd_seq oc)
              (length (dsi_writes (trace w)))) as [-> ->].
  destruct (forallb recognized (cmd_seq oc)); now cbn.
Qed.

End Projections.

(** ** Calling twice *)

(** A second call of the same operation right after the first does
    nothing and returns 0: the world and the panel stay as the first call
    left them. For prepare this needs the first call to have returned 0 (a
    prepare refused by the rail is tried again by the next call). *)
Theorem lifecycle_call_twice (c : call) (p : panel_simple) (w : world) :
  (c = Prepare -> fst (fst (run_call c p w)) = 0) ->
  let '(r, p1, w1) := run_call c p w in
  run_call c p1 w1 = (0, p1, w1).
Proof.
  intros Hok. destruct c; cbn [run_call] in *.
  - specialize (Hok eq_refl). destruct (prepared p) eqn:Hp.
    + unfold panel_simple_prepare. rewrite Hp. cbn. now rewrite Hp.
    + rewrite (prepare_run p w Hp) in *. cbv zeta in *.
      destruct (fst (panel_simple_regulator_enable p w) <? 0) eqn:Hneg.
      * cbn [fst] in Hok. apply Z.ltb_lt in Hneg. lia.
      * unfold panel_simple_prepare. reflexivity.
  - destruct (enabled p) eqn:He.
    + unfold panel_simple_enable. rewrite He. cbn. now rewrite He.
    + rewrite (enable_run p w He). unfold panel_simple_enable. reflexivity.
  - destruct (enabled p) eqn:He.
    + rewrite (disable_run p w He). unfold panel_simple_disable. reflexivity.
    + unfold panel_simple_disable. rewrite He. cbn. now rewrite He.
  - destruct (prepared p) eqn:Hp.
    + rewrite (unprepare_run p w Hp). unfold panel_simple_unprepare.
      reflexivity.
    + unfold panel_simple_unprepare. rewrite Hp. cbn. now rewrite Hp.
Qed.

Lemma lifecycle_call_twice_witness :
  let '(r, p1, w1) :=
    run_call Prepare (panel_probed None None false)
      (mk_world (rail false) host_ok []) in
  run_call Prepare p1 w1 = (0, p1, w1).
Proof.
  exact (lifecycle_call_twice Prepare (panel_probed None None false)
           (mk_world (rail false) host_ok []) (fun _ => eq_refl)).
Defined.

(** ** Power-up and power-down sequences *)

Lemma regulator_disable_run (p : panel_simple) (w : world) :
  trace (snd (panel_simple_regulator_disable p w))
  = trace w ++ regulator_disable_events p (supply w)
  /\ dsi_host (snd (panel_simple_regulator_disable p w)) = dsi_host w.
Proof.
  unfold panel_simple_regulator_disable, regulator_disable_events.
  destruct (power_invert p);
    cbv beta zeta delta [bind regulator_is_enabled regulator_enable
                           regulator_disable dev_err emit ret];
    destruct (rail_on (supply w)); cbn [Z.eqb];
    try destruct (enable_err (supply w) <? 0) eqn:He;
    try destruct (disable_err (supply w) <? 0) eqn:Hd;
    cbn [fst snd trace dsi_host]; rewrite ?He;
    cbn [fst snd trace dsi_host]; rewrite <- ?app_assoc, ?app_nil_r;
    split; reflexivity.
Qed.

(** Unprepare of a prepared panel cannot be stopped: whatever the DSI host
    and the rail answer, it returns 0 and clears the prepared flag (and
    nothing else of the panel), and the world gains exactly, in this
    order: the events of the off-sequence (with the failure line if it
    stopped at an unrecognized type), the reset line driven to the opposite
    of [reset_level], the enable line driven to 0, the request to the rail
    ([regulator_disable_events]) and the unprepare delay. The request to
    the rail is the disable request, or with [power_invert] set the enable
    request when the rail is off and none when it is on. *)
Theorem unprepare_runs_to_the_end (p : panel_simple) (w : world) :
  prepared p = true ->
  let '(r, p', w') := panel_simple_unprepare p w in
  r = 0
  /\ p' = set_prepared false p
  /\ dsi_host w' = dsi_host w
  /\ trace w'
     = trace w
       ++ sequence_events p (off_cmds p) LogOffCmdsFailed w
       ++ gpio_event (reset_gpio p) ResetGpio (lnot (reset_level p))
       ++ gpio_event (enable_gpio p) EnableGpio 0
       ++ regulator_disable_events p (supply w)
       ++ delay_events p delay_unprepare
  /\ rail_requests (trace w')
     = rail_requests (trace w)
       ++ (if power_invert p then
             if rail_on (supply w) then []
             else [EvRegulatorEnable
                     (if enable_err (supply w) <? 0
                      then enable_err (supply w) else 0)]
           else [EvRegulatorDisable
                   (if disable_err (supply w) <? 0
                    then disable_err (supply w) else 0)]).
Proof.
  intros Hp. rewrite (unprepare_run p w Hp).
  assert (Htrace :
    trace (add_events
             (snd (panel_simple_regulator_disable p
                     (add_events w
                        (sequence_events p (off_cmds p) LogOffCmdsFailed w
                         ++ gpio_event (reset_gpio p) ResetGpio
                              (lnot (reset_level p))
                         ++ gpio_event (enable_gpio p) EnableGpio 0))))
             (delay_events p delay_unprepare))
    = trace w
      ++ sequence_events p (off_cmds p) LogOffCmdsFailed w
      ++ gpio_event (reset_gpio p) ResetGpio (lnot (reset_level p))
      ++ gpio_event (enable_gpio p) EnableGpio 0
      ++ regulator_disable_events p (supply w)
      ++ delay_events p delay_unprepare).
  { cbn [add_events trace].
    rewrite (proj1 (regulator_disable_run p _)).
    cbn [add_events trace supply]. now rewrite <- !app_assoc. }
  split; [reflexivity|]. split; [reflexivity|]. split; [|split].
  - cbn [add_events dsi_host].
    now rewrite (proj2 (regulator_disable_run p _)).
  - exact Htrace.
  - rewrite Htrace, !rail_requests_app.
    destruct (sequence_events_no_lines p (off_cmds p) LogOffCmdsFailed w)
      as [_ ->].
    destruct (gpio_event_projections (reset_gpio p) ResetGpio
                (lnot (reset_level p))) as (_ & -> & _).
    destruct (gpio_event_projections (enable_gpio p) EnableGpio 0)
      as (_ & -> & _).
    destruct (delay_events_projections p delay_unprepare) as (_ & -> & _).
    cbn [app]. rewrite app_nil_r. f_equal.
    unfold regulator_disable_events.
    destruct (power_invert p), (rail_on (supply w)),
      (enable_err (supply w) <? 0), (disable_err (supply w) <? 0);
      reflexivity.
Qed.

Lemma unprepare_runs_to_the_end_witness :
  let p := mk_panel_simple true true false false
             (Some (mk_panel_desc 10 120 2 0 0 50)) true true
             None (Some cmds_with_unknown) 1 in
  let '(r, p', w') :=
    panel_simple_unprepare p (mk_world (rail true) host_ok []) in
  r = 0 /\ prepared p' = false
  /\ trace w'
     = [EvDsiWrite DcsWrite [x29] 1 0; EvLog LogOffCmdsFailed;
        EvGpioOutput ResetGpio 0; EvGpioOutput EnableGpio 0;
        EvRegulatorDisable 0; EvMsleep 50]
  /\ rail_requests (trace w') = [EvRegulatorDisable 0].
Proof.
  pose proof (unprepare_runs_to_the_end
                (mk_panel_simple true true false false
                   (Some (mk_panel_desc 10 120 2 0 0 50)) true true
                   None (Some cmds_with_unknown) 1)
                (mk_world (rail true) host_ok []) eq_refl) as H.
  cbn in H. cbn. destruct H as (Hr & Hp & _ & Ht & Hq). repeat split.
Defined.

(** Prepare of an unprepared panel whose rail step does not fail returns 0
    and sets the prepared flag (and nothing else of the panel). After the
    request to the rail the world gains the enable line driven to 1, the
    prepare delay, the reset line driven to the opposite of [reset_level],
    the reset delay, the reset line driven to [reset_level], and the init
    delay: the reset line ends at [reset_level]. *)
Theorem prepare_power_up_sequence (p : panel_simple) (w : world) :
  prepared p = false ->
  0 <= fst (panel_simple_regulator_enable p w) ->
  let '(r, p', w') := panel_simple_prepare p w in
  r = 0
  /\ p' = set_prepared true p
  /\ (exists rail_evs,
         trace w' = trace w ++ rail_evs ++ prepare_events p
         /\ gpio_events rail_evs = [] /\ sleeps rail_evs = [])
  /\ gpio_events (trace w')
     = gpio_events (trace w)
       ++ gpio_event (enable_gpio p) EnableGpio 1
       ++ gpio_event (reset_gpio p) ResetGpio (lnot (reset_level p))
       ++ gpio_event (reset_gpio p) ResetGpio (reset_level p)
  /\ sleeps (trace w')
     = sleeps (trace w)
       ++ delay_events p delay_prepare
       ++ delay_events p delay_reset
       ++ delay_events p delay_init.
Proof.
  intros Hp Hok. rewrite (prepare_run p w Hp). cbv zeta.
  replace (fst (panel_simple_regulator_enable p w) <? 0) with false
    by (symmetry; lia).
  destruct (proj1 (regulator_step_world p w))
    as (evs & Hw & Hg & Hs & Hd & _). rewrite Hw.
  unfold add_events. cbn [trace dsi_host supply].
  split; [reflexivity|]. split; [reflexivity|].
  split; [exists evs; repeat split; try assumption;
          now rewrite <- !app_assoc|].
  unfold prepare_events.
  rewrite !gpio_events_app, !sleeps_app, Hg, Hs.
  destruct (delay_events_projections p delay_prepare) as (-> & _ & _ & ->).
  destruct (delay_events_projections p delay_reset) as (-> & _ & _ & ->).
  destruct (delay_events_projections p delay_init) as (-> & _ & _ & ->).
  destruct (gpio_event_projections (enable_gpio p) EnableGpio 1)
    as (-> & _ & _ & ->).
  destruct (gpio_event_projections (reset_gpio p) ResetGpio
              (lnot (reset_level p))) as (-> & _ & _ & ->).
  destruct (gpio_event_projections (reset_gpio p) ResetGpio (reset_level p))
    as (-> & _ & _ & ->).
  cbn [app]. rewrite !app_nil_r. split; reflexivity.
Qed.

Lemma prepare_power_up_sequence_witness :
  let p := mk_panel_simple true false false false
             (Some (mk_panel_desc 10 120 2 0 0 0)) true true None None 1 in
  let '(r, p', w') :=
    panel_simple_prepare p (mk_world (rail false) host_ok []) in
  r = 0 /\ prepared p' = true
  /\ trace w'
     = [EvRegulatorEnable 0; EvGpioOutput EnableGpio 1;
        EvUsleepRange 2000 3000; EvGpioOutput ResetGpio 0;
        EvUsleepRange 10000 11000; EvGpioOutput ResetGpio 1; EvMsleep 120].
Proof.
  pose proof (prepare_power_up_sequence
                (mk_panel_simple true false false false
                   (Some (mk_panel_desc 10 120 2 0 0 0)) true true
                   None None 1)
                (mk_world (rail false) host_ok []) eq_refl) as H.
  cbn in H. cbn. assert (H0 : 0 <= 0) by lia. specialize (H H0).
  destruct H as (Hr & Hp & _). repeat split.
Defined.

(** ** The rail through prepare and unprepare *)

Lemma regulator_step_rail (p : panel_simple) (w : world) :
  0 <= enable_err (supply w) ->
  0 <= disable_err (supply w) ->
  fst (panel_simple_regulator_enable p w) = 0
  /\ rail_on (supply (snd (panel_simple_regulator_enable p w)))
     = negb (power_invert p)
  /\ rail_on (supply (snd (panel_simple_regulator_disable p w)))
     = power_invert p.
Proof.
  intros He Hd. apply Z.ltb_ge in He, Hd.
  unfold panel_simple_regulator_enable, panel_simple_regulator_disable.
  destruct (power_invert p);
    cbv beta zeta delta [bind regulator_is_enabled regulator_enable
                           regulator_disable when dev_err emit ret];
    destruct (rail_on (supply w)) eqn:Hr; cbn [Z.gtb Z.eqb Z.compare];
    rewrite ?He, ?Hd; cbn [fst snd supply rail_on negb Z.ltb Z.compare];
    auto.
Qed.

(** With a rail that accepts its requests, prepare of an unprepared panel
    returns 0 and leaves the rail on, unprepare of a prepared panel leaves
    it off; with [power_invert] set it is the other way round: off after
    prepare, on after unprepare. What state the rail was in before does not
    matter. *)
Theorem rail_follows_prepared (p : panel_simple) (w : world) :
  0 <= enable_err (supply w) ->
  0 <= disable_err (supply w) ->
  (prepared p = false ->
   fst (fst (panel_simple_prepare p w)) = 0
   /\ rail_on (supply (snd (panel_simple_prepare p w)))
      = negb (power_invert p))
  /\ (prepared p = true ->
      rail_on (supply (snd (panel_simple_unprepare p w))) = power_invert p).
Proof.
  intros He Hd. split; intros Hp.
  - rewrite (prepare_run p w Hp). cbv zeta.
    destruct (regulator_step_rail p w He Hd) as (Hret & Hon & _).
    rewrite Hret. cbn [Z.ltb Z.compare fst snd add_events supply].
    auto.
  - rewrite (unprepare_run p w Hp). cbn [snd add_events supply].
    match goal with
    | |- context [panel_simple_regulator_disable p ?w2] =>
        exact (proj2 (proj2 (regulator_step_rail p w2 He Hd)))
    end.
Qed.

Lemma rail_follows_prepared_witness :
  rail_on (supply (snd (panel_simple_prepare (panel_probed None None true)
                          (mk_world (rail true) host_ok [])))) = false
  /\ rail_on (supply (snd (panel_simple_unprepare
                             (set_prepared true (panel_probed None None true))
                             (mk_world (rail false) host_ok [])))) = true.
Proof.
  assert (H0 : 0 <= 0) by lia. split.
  - exact (proj2 (proj1 (rail_follows_prepared (panel_probed None None true)
                           (mk_world (rail true) host_ok []) H0 H0)
                    eq_refl)).
  - exact (proj2 (rail_follows_prepared
                    (set_prepared true (panel_probed None None true))
                    (mk_world (rail false) host_ok []) H0 H0) eq_refl).
Defined.

(** ** Enable and disable *)

(** Enable returns something other than 0 in exactly one situation: the
    panel was not enabled, it has a DSI device and an on-sequence, and the
    on-sequence holds a command of an unrecognized type. What it returns
    then is -EINVAL; what the DSI host answers never shows in it. *)
Theorem enable_fails_iff (p : panel_simple) (w : world) :
  (fst (fst (panel_simple_enable p w)) <> 0
   <-> enabled p = false /\ dsi p = true
       /\ exists oc, on_cmds p = Some oc
                     /\ forallb recognized (cmd_seq oc) = false)
  /\ (fst (fst (panel_simple_enable p w)) = 0
      \/ fst (fst (panel_simple_enable p w)) = - EINVAL).
Proof.
  destruct (enabled p) eqn:He.
  - unfold panel_simple_enable. rewrite He. cbn. split; [|now left].
    split; [congruence|]. intros [H _]. discriminate H.
  - rewrite (enable_run p w He). cbn [fst]. unfold sequence_ret.
    destruct (on_cmds p) as [oc|].
    + destruct (dsi p).
      * destruct (forallb recognized (cmd_seq oc)) eqn:Hrec.
        -- split; [|now left]. split; [congruence|].
           intros (_ & _ & oc' & [= <-] & H). congruence.
        -- split; [|now right]. split; [|discriminate].
           intros _. repeat split. now exists oc.
      * split; [|now left]. split; [congruence|].
        intros (_ & H & _). discriminate H.
    + split; [|now left]. split; [congruence|].
      intros (_ & _ & oc & H & _). discriminate H.
Qed.

(** Enable and disable leave the power hardware alone: neither makes a
    request to the rail or drives a GPIO line, the rail is as it was, and
    disable writes nothing to the DSI host either. *)
Theorem enable_disable_leave_power (p : panel_simple) (w : world) :
  (supply (snd (panel_simple_enable p w)) = supply w
   /\ gpio_events (trace (snd (panel_simple_enable p w)))
      = gpio_events (trace w)
   /\ rail_requests (trace (snd (panel_simple_enable p w)))
      = rail_requests (trace w))
  /\ (supply (snd (panel_simple_disable p w)) = supply w
      /\ gpio_events (trace (snd (panel_simple_disable p w)))
         = gpio_events (trace w)
      /\ rail_requests (trace (snd (panel_simple_disable p w)))
         = rail_requests (trace w)
      /\ dsi_sent (trace (snd (panel_simple_disable p w)))
         = dsi_sent (trace w)).
Proof.
  split.
  - destruct (enabled p) eqn:He.
    + unfold panel_simple_enable. rewrite He. now cbn.
    + rewrite (enable_run p w He). cbn [snd add_events supply trace].
      rewrite !gpio_events_app, !rail_requests_app.
      destruct (delay_events_projections p delay_enable) as (-> & -> & _).
      destruct (sequence_events_no_lines p (on_cmds p) LogOnCmdsFailed w)
        as [-> ->].
      now rewrite !app_nil_r.
  - destruct (enabled p) eqn:He.
    + rewrite (disable_run p w He). cbn [snd add_events supply trace].
      rewrite gpio_events_app, rail_requests_app, dsi_sent_app.
      destruct (delay_events_projections p delay_disable)
        as (-> & -> & -> & _).
      now rewrite !app_nil_r.
    + unfold panel_simple_disable. rewrite He. now cbn.
Qed.

(** ** Shutdown and remove *)

(** Shutdown clears the enabled flag and leaves the prepared flag as it
    is. It never writes to the DSI host, so the off-sequence is not sent,
    and the only sleep it can add is the disable delay of a panel that was
    enabled. On a prepared panel it drives the reset line to the opposite
    of [reset_level] and the enable line to 0; on an unprepared one it
    drives no line and leaves the rail alone. *)
Theorem shutdown_power_down (p : panel_simple) (w : world) :
  let '(p', w') := panel_simple_shutdown p w in
  enabled p' = false
  /\ prepared p' = prepared p
  /\ dsi_sent (trace w') = dsi_sent (trace w)
  /\ sleeps (trace w')
     = sleeps (trace w)
       ++ (if enabled p then delay_events p delay_disable else [])
  /\ gpio_events (trace w')
     = gpio_events (trace w)
       ++ (if prepared p
           then gpio_event (reset_gpio p) ResetGpio (lnot (reset_level p))
                ++ gpio_event (enable_gpio p) EnableGpio 0
           else [])
  /\ (prepared p = false -> supply w' = supply w).
Proof.
  rewrite shutdown_run. cbv zeta.
  destruct (gpio_event_projections (reset_gpio p) ResetGpio
              (lnot (reset_level p))) as (Hg1 & _ & Hd1 & Hs1).
  destruct (gpio_event_projections (enable_gpio p) EnableGpio 0)
    as (Hg2 & _ & Hd2 & Hs2).
  destruct (delay_events_projections p delay_disable)
    as (Hg3 & _ & Hd3 & Hs3).
  destruct (prepared p) eqn:Hp.
  - match goal with
    | |- context [panel_simple_regulator_disable ?p1 ?w2] =>
        destruct (proj2 (regulator_step_world p1 w2))
          as (evs & Hw & Hg & Hs & Hd & _); rewrite Hw
    end.
    destruct (enabled p) eqn:He;
      cbn [enabled prepared set_enabled add_events trace supply dsi_host];
      rewrite ?He, ?Hp;
      rewrite !dsi_sent_app, !sleeps_app, !gpio_events_app;
      rewrite Hg, Hs, Hd, Hg1, Hg2, Hd1, Hd2, Hs1, Hs2, ?Hg3, ?Hd3, ?Hs3;
      rewrite ?app_nil_r; repeat split; try reflexivity;
      try discriminate; now rewrite <- ?app_assoc.
  - destruct (enabled p) eqn:He;
      cbn [enabled prepared set_enabled add_events trace supply];
      rewrite ?He, ?Hp, ?dsi_sent_app, ?sleeps_app, ?gpio_events_app;
      rewrite ?Hg3, ?Hd3, ?Hs3, ?app_nil_r; repeat split; reflexivity.
Qed.

(** Remove ends with both flags clear and returns 0, whatever state the
    panel was in; on a panel with both flags clear it does nothing. *)
Theorem remove_ends_unprepared (p : panel_simple) (w : world) :
  let '(r, p', w') := panel_simple_remove p w in
  r = 0
  /\ both_flags_clear p'
  /\ (both_flags_clear p -> p' = p /\ w' = w).
Proof.
  unfold panel_simple_remove, both_flags_clear.
  rewrite !bind_run. cbn [ret fst snd].
  rewrite unprepare_flags, disable_flags.
  split; [reflexivity|]. split.
  - destruct (enabled p) eqn:He, (prepared p) eqn:Hp;
      cbn [prepared enabled set_enabled set_prepared];
      rewrite ?He, ?Hp; cbn [prepared enabled set_enabled set_prepared];
      rewrite ?He, ?Hp; auto.
  - intros [He Hp]. rewrite He, Hp. cbn [prepared set_enabled].
    unfold panel_simple_disable, panel_simple_unprepare.
    rewrite He. cbn [negb ret fst snd]. rewrite Hp. cbn. auto.
Qed.

Lemma remove_ends_unprepared_witness :
  let '(r, p', w') :=
    panel_simple_remove
      (set_enabled true (set_prepared true (panel_probed None None false)))
      (mk_world (rail true) host_ok []) in
  r = 0 /\ enabled p' = false /\ prepared p' = false.
Proof.
  pose proof (remove_ends_unprepared
                (set_enabled true
                   (set_prepared true (panel_probed None None false)))
                (mk_world (rail true) host_ok [])) as H.
  cbn in H. cbn. destruct H as (Hr & [He Hp] & _). auto.
Defined.

(* ================================================================= *)
(** * Reading the two sequences of a panel *)

(** When [panel_simple_get_cmds] returns 0, every sequence the node has was
    parsed whole: the panel holds, for the init property as [on_cmds] and
    for the exit property as [off_cmds], commands over a copy of the
    property's bytes whose sizes add up to its length; a sequence the node
    does not have leaves the panel's pointer as it was. The flags of the
    panel are not touched. (The properties have at most [INT_MAX]
    bytes.) *)
Theorem get_cmds_success (node : cmds_node) (mm : cmds_allocs)
  (p p' : panel_simple) (log : list probe_log) :
  (forall d, panel_init_sequence node = Some d ->
             Z.of_nat (length d) <= INT_MAX) ->
  (forall d, panel_exit_sequence node = Some d ->
             Z.of_nat (length d) <= INT_MAX) ->
  panel_simple_get_cmds node mm p = Some (GotCmds 0 p' log) ->
  match panel_init_sequence node with
  | Some d => exists pc, on_cmds p' = Some pc /\ buf pc = d
                         /\ total_size (cmd_seq pc) = Z.of_nat (length d)
  | None => on_cmds p' = on_cmds p
  end
  /\ match panel_exit_sequence node with
     | Some d => exists pc, off_cmds p' = Some pc /\ buf pc = d
                            /\ total_size (cmd_seq pc) = Z.of_nat (length d)
     | None => off_cmds p' = off_cmds p
     end
  /\ enabled p' = enabled p /\ prepared p' = prepared p.
Proof.
  intros Hinit Hexit. unfold panel_simple_get_cmds.
  assert (Hsecond :
    forall p1 log1,
      get_exit_cmds node mm p1 log1 = Some (GotCmds 0 p' log) ->
      on_cmds p' = on_cmds p1
      /\ match panel_exit_sequence node with
         | Some d => exists pc, off_cmds p' = Some pc /\ buf pc = d
                     /\ total_size (cmd_seq pc) = Z.of_nat (length d)
         | None => off_cmds p' = off_cmds p1
         end
      /\ enabled p' = enabled p1 /\ prepared p' = prepared p1).
  { intros p1 log1. unfold get_exit_cmds.
    destruct (panel_exit_sequence node) as [d|].
    - destruct (off_kzalloc_fails mm); [discriminate|].
      destruct (panel_simple_parse_cmds _ _ _) as [[err pcmds plog|off]|]
        eqn:Hparse; try discriminate.
      destruct (err =? 0) eqn:Herr; cbn [negb].
      + intros [= <- <-]. apply Z.eqb_eq in Herr. subst err.
        destruct pcmds as [pc|].
        * destruct (parse_cmds_success _ _ _ _ _ (Hexit d eq_refl) Hparse)
            as (Hbuf & Hseq & Hsize & _).
          rewrite <- Hseq in Hsize. cbn. eauto 8.
        * unfold panel_simple_parse_cmds in Hparse.
          destruct (kmemdup_fails _); [discriminate|].
          destruct (scan_cmds _ _ _ _ _) as [[len cnt|dl|o]|];
            try discriminate.
          destruct (negb (len =? 0)).
          -- destruct (read_u8 d 0); discriminate.
          -- destruct (kcalloc_fails _); [discriminate|].
             destruct (fill_cmds _ _ _ _); discriminate.
      + intros [= H _ _]. apply Z.eqb_neq in Herr. congruence.
    - intros [= <- <-]. auto. }
  destruct (panel_init_sequence node) as [d|].
  - destruct (on_kzalloc_fails mm); [discriminate|].
    destruct (panel_simple_parse_cmds _ _ _) as [[err pcmds plog|off]|]
      eqn:Hparse; try discriminate.
    destruct (err =? 0) eqn:Herr; cbn [negb].
    + intros H. apply Hsecond in H. apply Z.eqb_eq in Herr. subst err.
      destruct H as (Hon & Hoff & He & Hp). cbn in Hon, He, Hp.
      split; [|split; [|now split]].
      * destruct pcmds as [pc|].
        -- destruct (parse_cmds_success _ _ _ _ _ (Hinit d eq_refl) Hparse)
             as (Hbuf & Hseq & Hsize & _).
           rewrite <- Hseq in Hsize. eauto.
        -- unfold panel_simple_parse_cmds in Hparse.
           destruct (kmemdup_fails _); [discriminate|].
           destruct (scan_cmds _ _ _ _ _) as [[len cnt|dl|o]|];
             try discriminate.
           destruct (negb (len =? 0)).
           ++ destruct (read_u8 d 0); discriminate.
           ++ destruct (kcalloc_fails _); [discriminate|].
              destruct (fill_cmds _ _ _ _); discriminate.
      * destruct (panel_exit_sequence node); [exact Hoff|].
        rewrite Hoff. reflexivity.
    + intros [= H _ _]. apply Z.eqb_neq in Herr. congruence.
  - intros H. apply Hsecond in H. tauto.
Qed.

Lemma get_cmds_success_witness :
  let p' := set_off_cmds (Some cmds_with_unknown)
              (set_on_cmds (Some cmds_sleep_out_display_on)
                 (panel_probed None None false)) in
  (exists pc, on_cmds p' = Some pc
              /\ buf pc = [x05; x78; x01; x11; x05; x14; x01; x29]
              /\ total_size (cmd_seq pc) = 8)
  /\ (exists pc, off_cmds p' = Some pc
                 /\ buf pc = [x05; x00; x01; x29; xff; x00; x01; x00]
                 /\ total_size (cmd_seq pc) = 8)
  /\ enabled p' = false /\ prepared p' = false.
Proof.
  refine (get_cmds_success
            (mk_cmds_node (Some [x05; x78; x01; x11; x05; x14; x01; x29])
               (Some [x05; x00; x01; x29; xff; x00; x01; x00]))
            (mk_cmds_allocs false alloc_ok false alloc_ok)
            (panel_probed None None false) _ [] _ _ _).
  - intros d [= <-]. vm_compute. discriminate.
  - intros d [= <-]. vm_compute. discriminate.
  - reflexivity.
Defined.

(** A malformed init sequence stops [panel_simple_get_cmds]: whenever the
    parser returns an error for the init property, the function returns
    that error, logs its own line last, and does not look at the exit
    property, so the panel's [off_cmds] is as it was. *)
Theorem get_cmds_init_error_stops (node : cmds_node) (mm : cmds_allocs)
  (p : panel_simple) (d : list u8) (err : Z) (pcmds : option panel_cmds)
  (plog : list log_msg) :
  panel_init_sequence node = Some d ->
  on_kzalloc_fails mm = false ->
  panel_simple_parse_cmds (on_parse_alloc mm) d
    (Some (mk_panel_cmds [] 0 [] 0)) = Some (Returned err pcmds plog) ->
  err <> 0 ->
  exists p',
    panel_simple_get_cmds node mm p
    = Some (GotCmds err p' (map LogParse plog ++ [LogInitSequenceFailed]))
    /\ off_cmds p' = off_cmds p
    /\ on_cmds p' = pcmds.
Proof.
  intros Hd Hk Hparse Herr. unfold panel_simple_get_cmds.
  rewrite Hd, Hk, Hparse. apply Z.eqb_neq in Herr. rewrite Herr.
  cbn [negb]. eexists. split; [reflexivity|]. now cbn.
Qed.

Lemma get_cmds_init_error_stops_witness :
  exists p',
    panel_simple_get_cmds
      (mk_cmds_node (Some [x05; x00; x01; x29; xaa])
         (Some [x05; x00; x01; x28]))
      (mk_cmds_allocs false alloc_ok false alloc_ok)
      (panel_probed None None false)
    = Some (GotCmds (- EINVAL) p'
              (map LogParse [LogParseTrailer x05 5]
               ++ [LogInitSequenceFailed]))
    /\ off_cmds p' = None
    /\ on_cmds p' = Some (mk_panel_cmds [] 0 [] 0).
Proof.
  refine (get_cmds_init_error_stops
            (mk_cmds_node (Some [x05; x00; x01; x29; xaa])
               (Some [x05; x00; x01; x28]))
            (mk_cmds_allocs false alloc_ok false alloc_ok)
            (panel_probed None None false) [x05; x00; x01; x29; xaa]
            (- EINVAL) (Some (mk_panel_cmds [] 0 [] 0))
            [LogParseTrailer x05 5] eq_refl eq_refl eq_refl _).
  discriminate.
Defined.

(* ================================================================= *)
(** * Copying the timings *)

Section CopyTimings.

Context {T : Type}.

Lemma array_set_length (a : list T) (i : nat) (x : T) :
  (i < length a)%nat -> length (array_set a i x) = length a.
Proof.
  intros Hi. unfold array_set.
  rewrite length_app, length_firstn. cbn [length]. rewrite length_skipn. lia.
Qed.

Lemma array_set_firstn (a : list T) (i : nat) (x : T) :
  (i < length a)%nat -> firstn (S i) (array_set a i x) = firstn i a ++ [x].
Proof.
  intros Hi. unfold array_set.
  replace (S i) with (length (firstn i a) + 1)%nat
    by (rewrite length_firstn; lia).
  now rewrite firstn_app_2.
Qed.

Lemma array_set_skipn (a : list T) (i k : nat) (x : T) :
  (i < length a)%nat -> (i < k)%nat ->
  skipn k (array_set a i x) = skipn k a.
Proof.
  intros Hi Hk. unfold array_set.
  rewrite skipn_app, length_firstn, skipn_all2
    by (rewrite length_firstn; lia).
  replace (k - Nat.min i (length a))%nat with (S (k - S i)) by lia.
  cbn [app]. rewrite skipn_cons, skipn_skipn. f_equal. lia.
Qed.

(** The loop copies [n] entries from index [i] on and leaves the rest of
    the caller's array as it was. *)
Lemma copy_timings_copies :
  forall (n i : nat) (src out : list T),
    (i + n <= length src)%nat ->
    (i + n <= length out)%nat ->
    copy_timings n i src out
    = Some (firstn i out ++ firstn n (skipn i src) ++ skipn (i + n) out).
Proof.
  induction n as [|n IH]; intros i src out Hsrc Hout.
  - cbn [copy_timings firstn app]. rewrite Nat.add_0_r.
    now rewrite firstn_skipn.
  - cbn [copy_timings].
    destruct (nth_error src i) as [t|] eqn:Ht;
      [|apply nth_error_None in Ht; lia].
    replace (i <? length out)%nat with true
      by (symmetry; apply Nat.ltb_lt; lia).
    rewrite IH by (rewrite ?array_set_length; lia).
    rewrite array_set_firstn, array_set_skipn by lia.
    rewrite (skipn_nth_error i src t Ht). cbn [firstn].
    rewrite <- app_assoc. cbn [app].
    now replace (S i + n)%nat with (i + S n)%nat by lia.
Qed.

(** With a descriptor whose array has [num_timings] entries and a caller's
    array of at least as many entries as are asked for,
    [panel_simple_get_timings] copies the first min(n, num_timings)
    timings into the caller's array, leaves the entries behind them and
    the length of the array as they were, and returns [num_timings],
    however many were asked for. *)
Theorem get_timings_copies_at_most (ds : desc_timings T) (n : Z)
  (a : list T) :
  0 <= n ->
  Z.of_nat (length (timings ds)) = num_timings ds ->
  num_timings ds <= INT_MAX ->
  Z.min n (num_timings ds) <= Z.of_nat (length a) ->
  let k := Z.to_nat (Z.min n (num_timings ds)) in
  panel_simple_get_timings (Some ds) n (Some a)
  = TimingsReturned (num_timings ds)
      (Some (firstn k (timings ds) ++ skipn k a))
  /\ length (firstn k (timings ds) ++ skipn k a) = length a.
Proof.
  intros Hn Hlen Hmax Ha. cbv zeta. unfold panel_simple_get_timings.
  replace (if num_timings ds <? n then num_timings ds else n)
    with (Z.min n (num_timings ds))
    by (destruct (num_timings ds <? n) eqn:E; lia).
  rewrite copy_timings_copies by lia.
  cbn [firstn skipn app Nat.add].
  replace (to_int (num_timings ds)) with (num_timings ds).
  - split; [reflexivity|].
    rewrite length_app, length_firstn, length_skipn. lia.
  - unfold to_int. rewrite to_uint_small
      by (unfold INT_MAX, UINT_MODULUS in *; lia).
    now replace (num_timings ds >? INT_MAX) with false by (symmetry; lia).
Qed.

End CopyTimings.

Lemma get_timings_copies_at_most_witness :
  panel_simple_get_timings (Some (mk_desc_timings [1; 2; 3] 3)) 2
    (Some [7; 7; 7; 7])
  = TimingsReturned 3 (Some [1; 2; 7; 7]).
Proof.
  refine (proj1 (get_timings_copies_at_most (mk_desc_timings [1; 2; 3] 3) 2
                   [7; 7; 7; 7] _ eq_refl _ _)).
  - lia.
  - vm_compute. discriminate.
  - vm_compute. discriminate.
Defined.

(* ================================================================= *)
(** * The suspend configuration handed to the firmware *)

Section PmConfig.

Variable gpio_is_valid : Z -> bool.

Lemma smc_calls_app (ctrl : Z) (e1 e2 : list pm_event) :
  smc_calls ctrl (e1 ++ e2) = smc_calls ctrl e1 ++ smc_calls ctrl e2.
Proof. apply flat_map_app. Qed.

Lemma smc_calls_forward (ctrl c : Z) (v : option Z) (missing : list pm_event) :
  0 <= c < UINT_MODULUS ->
  smc_calls ctrl missing = [] ->
  smc_calls ctrl (forward_config c v missing)
  = if c =? ctrl
    then match v with Some x => [(to_uint x, 0)] | None => [] end
    else [].
Proof.
  intros Hc Hmiss. unfold forward_config, sip_smc_set_suspend_mode.
  destruct v as [x|].
  - cbn [smc_calls flat_map]. rewrite (to_uint_small c Hc), app_nil_r.
    now destruct (c =? ctrl).
  - rewrite Hmiss. now destruct (c =? ctrl).
Qed.

(** The loop forwards the GPIOs from index [i] up to the index it stops
    at: all of them valid, and the one it stops at invalid unless it ran
    through. *)
Lemma power_ctrl_loop_calls (gpio : Z -> Z) :
  forall (n : nat) (i : Z),
    0 <= i ->
    i + Z.of_nat n < UINT_MODULUS ->
    let r := power_ctrl_loop gpio_is_valid gpio n i in
    i <= fst r <= i + Z.of_nat n
    /\ snd r
       = map (fun j => PmSmc GPIO_POWER_CONFIG (i + Z.of_nat j)
                         (to_uint (gpio (i + Z.of_nat j))))
           (seq 0 (Z.to_nat (fst r - i)))
    /\ (forall k, i <= k < fst r -> gpio_is_valid (gpio k) = true)
    /\ (fst r < i + Z.of_nat n -> gpio_is_valid (gpio (fst r)) = false).
Proof.
  induction n as [|n IH]; intros i Hi Hmax; cbv zeta.
  - cbn [power_ctrl_loop fst snd]. rewrite Z.sub_diag. cbn.
    repeat split; try lia.
  - cbn [power_ctrl_loop].
    destruct (gpio_is_valid (gpio i)) eqn:Hv; cbn [negb].
    + specialize (IH (i + 1) ltac:(lia) ltac:(lia)). cbv zeta in IH.
      destruct (power_ctrl_loop gpio_is_valid gpio n (i + 1)) as [m evs].
      cbn [fst snd] in *. destruct IH as (Hm & Hevs & Hvalid & Hstop).
      split; [lia|]. split; [|split].
      * replace (Z.to_nat (m - i)) with (S (Z.to_nat (m - (i + 1)))) by lia.
        cbn [seq map]. rewrite <- seq_shift, map_map, Hevs.
        unfold sip_smc_set_suspend_mode.
        rewrite (to_uint_small i) by lia. rewrite Z.add_0_r.
        f_equal. apply map_ext. intros j.
        now replace (i + Z.of_nat (S j)) with (i + 1 + Z.of_nat j) by lia.
      * intros k Hk. destruct (Z.eq_dec k i) as [->|Hne]; [exact Hv|].
        apply Hvalid. lia.
      * intros Hlt. apply Hstop. lia.
    + cbn [fst snd]. rewrite Z.sub_diag. cbn.
      repeat split; try lia. intros _. exact Hv.
Qed.

Lemma smc_calls_power_ctrl (ctrl i : Z) (gpio : Z -> Z) (l : list nat) :
  smc_calls ctrl
    (map (fun j => PmSmc GPIO_POWER_CONFIG (i + Z.of_nat j)
                     (to_uint (gpio (i + Z.of_nat j)))) l)
  = if GPIO_POWER_CONFIG =? ctrl
    then map (fun j => (i + Z.of_nat j, to_uint (gpio (i + Z.of_nat j)))) l
    else [].
Proof.
  induction l as [|j l IH]; [now destruct (_ =? _)|].
  cbn [map].
  match goal with
  | |- smc_calls ctrl (?e :: ?l') = _ =>
      change (e :: l') with ([e] ++ l'); rewrite smc_calls_app
  end.
  rewrite IH. cbn [smc_calls flat_map app].
  now destruct (GPIO_POWER_CONFIG =? ctrl).
Qed.

(** Without a matching device or without a "rockchip-suspend" node the
    function returns -ENODEV and makes no call to the firmware. *)
Theorem pm_config_no_device (bd : pm_board) (ctrl : Z) :
  pm_matched bd = false \/ pm_suspend_node bd = false ->
  fst (pm_config_init gpio_is_valid bd) = - ENODEV
  /\ smc_calls ctrl (snd (pm_config_init gpio_is_valid bd)) = [].
Proof.
  unfold pm_config_init. intros [H|H].
  - rewrite H. now cbn.
  - rewrite H. destruct (pm_matched bd); now cbn.
Qed.

(** With a device and a node the function returns 0, and the GPIO calls it
    makes are a list closed by exactly one call with [PM_INVALID_GPIO]: the
    first [m] GPIOs of "rockchip,power-ctrl" at the indices 0 .. m-1, all
    of them valid, then the closing call at index [m]. [m] is at most 9;
    it is 0 when the property has no or more than nine entries, and
    otherwise the index of the first invalid GPIO, or the number of entries
    when all are valid. *)
Theorem pm_config_power_ctrl_list (bd : pm_board) :
  pm_matched bd = true ->
  pm_suspend_node bd = true ->
  fst (pm_config_init gpio_is_valid bd) = 0
  /\ exists m,
      0 <= m <= 9
      /\ smc_calls GPIO_POWER_CONFIG (snd (pm_config_init gpio_is_valid bd))
         = map (fun j => (Z.of_nat j,
                          to_uint (power_ctrl_gpio bd (Z.of_nat j))))
             (seq 0 (Z.to_nat m))
           ++ [(m, PM_INVALID_GPIO)]
      /\ (forall k, 0 <= k < m ->
                    gpio_is_valid (power_ctrl_gpio bd k) = true)
      /\ (0 < power_ctrl_count bd < 10 ->
          m <= power_ctrl_count bd
          /\ (m < power_ctrl_count bd ->
              gpio_is_valid (power_ctrl_gpio bd m) = false))
      /\ (power_ctrl_count bd <= 0 \/ 10 <= power_ctrl_count bd -> m = 0).
Proof.
  intros Hm Hn. unfold pm_config_init. rewrite Hm, Hn. cbn [negb].
  assert (Hloop :
    exists m evs,
      (if (power_ctrl_count bd >? 0) && (power_ctrl_count bd <? 10)
       then power_ctrl_loop gpio_is_valid (power_ctrl_gpio bd)
              (Z.to_nat (power_ctrl_count bd)) 0
       else (0, [])) = (m, evs)
      /\ 0 <= m <= 9
      /\ evs = map (fun j => PmSmc GPIO_POWER_CONFIG (0 + Z.of_nat j)
                               (to_uint (power_ctrl_gpio bd (0 + Z.of_nat j))))
                 (seq 0 (Z.to_nat m))
      /\ (forall k, 0 <= k < m ->
                    gpio_is_valid (power_ctrl_gpio bd k) = true)
      /\ (0 < power_ctrl_count bd < 10 ->
          m <= power_ctrl_count bd
          /\ (m < power_ctrl_count bd ->
              gpio_is_valid (power_ctrl_gpio bd m) = false))
      /\ (power_ctrl_count bd <= 0 \/ 10 <= power_ctrl_count bd -> m = 0)).
  { destruct ((power_ctrl_count bd >? 0) && (power_ctrl_count bd <? 10))
      eqn:Hc.
    - apply andb_true_iff in Hc as [Hlo Hhi].
      pose proof (power_ctrl_loop_calls (power_ctrl_gpio bd)
                    (Z.to_nat (power_ctrl_count bd)) 0 ltac:(lia)
                    ltac:(unfold UINT_MODULUS; lia)) as H.
      cbv zeta in H.
      destruct (power_ctrl_loop _ _ _ _) as [m evs]. cbn [fst snd] in H.
      destruct H as (Hr & Hevs & Hvalid & Hstop).
      rewrite Z.sub_0_r in Hevs.
      exists m, evs. repeat split; try assumption; try lia.
      intros Hlt. apply Hstop. lia.
    - apply andb_false_iff in Hc.
      exists 0, []. repeat split; try lia. }
  destruct Hloop as (m & evs & -> & Hm9 & -> & Hvalid & Hstop & Hzero).
  cbn [fst snd]. split; [reflexivity|].
  exists m. split; [assumption|]. split; [|auto].
  rewrite !smc_calls_app, smc_calls_power_ctrl.
  rewrite !smc_calls_forward by (try reflexivity; unfold UINT_MODULUS;
    cbv delta [SUSPEND_MODE_CONFIG WKUP_SOURCE_CONFIG PWM_REGULATOR_CONFIG
                 SUSPEND_DEBUG_ENABLE APIOS_SUSPEND_CONFIG]; lia).
  cbn [Z.eqb GPIO_POWER_CONFIG SUSPEND_MODE_CONFIG WKUP_SOURCE_CONFIG
         PWM_REGULATOR_CONFIG SUSPEND_DEBUG_ENABLE APIOS_SUSPEND_CONFIG
         Pos.eqb app].
  unfold sip_smc_set_suspend_mode. cbn [smc_calls flat_map].
  rewrite (to_uint_small m) by (unfold UINT_MODULUS; lia).
  rewrite app_nil_r. reflexivity.
Qed.

(** With a device and a node, each of the five one-cell properties is
    forwarded when and only when it is present: one call of its kind with
    the value and 0, and no call of that kind otherwise. *)
Theorem pm_config_forwards_properties (bd : pm_board) :
  pm_matched bd = true ->
  pm_suspend_node bd = true ->
  let evs := snd (pm_config_init gpio_is_valid bd) in
  let one v := match v with Some x => [(to_uint x, 0)] | None => [] end in
  smc_calls SUSPEND_MODE_CONFIG evs = one (sleep_mode_config bd)
  /\ smc_calls WKUP_SOURCE_CONFIG evs = one (wakeup_config bd)
  /\ smc_calls PWM_REGULATOR_CONFIG evs = one (pwm_regulator_config bd)
  /\ smc_calls SUSPEND_DEBUG_ENABLE evs = one (sleep_debug_en bd)
  /\ smc_calls APIOS_SUSPEND_CONFIG evs = one (apios_suspend bd).
Proof.
  intros Hm Hn. cbv zeta. unfold pm_config_init. rewrite Hm, Hn.
  cbn [negb].
  destruct (if (power_ctrl_count bd >? 0) && (power_ctrl_count bd <? 10)
            then power_ctrl_loop gpio_is_valid (power_ctrl_gpio bd)
                   (Z.to_nat (power_ctrl_count bd)) 0
            else (0, [])) as [m evs] eqn:Hloop.
  assert (Hevs : exists l,
             evs = map (fun j => PmSmc GPIO_POWER_CONFIG (0 + Z.of_nat j)
                                   (to_uint (power_ctrl_gpio bd
                                               (0 + Z.of_nat j)))) l).
  { destruct ((power_ctrl_count bd >? 0) && (power_ctrl_count bd <? 10))
      eqn:Hc.
    - apply andb_true_iff in Hc as [Hlo Hhi].
      pose proof (power_ctrl_loop_calls (power_ctrl_gpio bd)
                    (Z.to_nat (power_ctrl_count bd)) 0 ltac:(lia)
                    ltac:(unfold UINT_MODULUS; lia)) as H.
      cbv zeta in H. rewrite Hloop in H. cbn [fst snd] in H.
      destruct H as (_ & H & _). eauto.
    - injection Hloop as <- <-. now exists []. }
  destruct Hevs as [l ->]. cbn [snd].
  repeat split;
    rewrite !smc_calls_app, smc_calls_power_ctrl;
    rewrite !smc_calls_forward by (try reflexivity; unfold UINT_MODULUS;
      cbv delta [SUSPEND_MODE_CONFIG WKUP_SOURCE_CONFIG PWM_REGULATOR_CONFIG
                   SUSPEND_DEBUG_ENABLE APIOS_SUSPEND_CONFIG]; lia);
    cbn [Z.eqb GPIO_POWER_CONFIG SUSPEND_MODE_CONFIG WKUP_SOURCE_CONFIG
           PWM_REGULATOR_CONFIG SUSPEND_DEBUG_ENABLE APIOS_SUSPEND_CONFIG
           Pos.eqb app];
    unfold sip_smc_set_suspend_mode; cbn [smc_calls flat_map];
    rewrite ?app_nil_r; reflexivity.
Qed.

End PmConfig.

Lemma pm_config_no_device_witness :
  fst (pm_config_init gpio_below_512
         (mk_pm_board true false (Some 5) None None 0 (fun _ => 0) None None))
  = - ENODEV
  /\ smc_calls SUSPEND_MODE_CONFIG
       (snd (pm_config_init gpio_below_512
               (mk_pm_board true false (Some 5) None None 0 (fun _ => 0)
                  None None))) = [].
Proof.
  exact (pm_config_no_device gpio_below_512
           (mk_pm_board true false (Some 5) None None 0 (fun _ => 0)
              None None)
           SUSPEND_MODE_CONFIG (or_intror eq_refl)).
Defined.

Lemma pm_config_power_ctrl_list_witness :
  fst (pm_config_init gpio_below_512 board_two_gpios) = 0
  /\ exists m,
      0 <= m <= 9
      /\ [(0, 10); (1, 11); (2, 65535)]
         = map (fun j => (Z.of_nat j,
                          to_uint (power_ctrl_gpio board_two_gpios
                                     (Z.of_nat j))))
             (seq 0 (Z.to_nat m))
           ++ [(m, PM_INVALID_GPIO)]
      /\ (forall k, 0 <= k < m ->
                    gpio_below_512 (power_ctrl_gpio board_two_gpios k) = true)
      /\ (0 < power_ctrl_count board_two_gpios < 10 ->
          m <= power_ctrl_count board_two_gpios
          /\ (m < power_ctrl_count board_two_gpios ->
              gpio_below_512 (power_ctrl_gpio board_two_gpios m) = false))
      /\ (power_ctrl_count board_two_gpios <= 0
          \/ 10 <= power_ctrl_count board_two_gpios -> m = 0).
Proof.
  exact (pm_config_power_ctrl_list gpio_below_512 board_two_gpios
           eq_refl eq_refl).
Defined.

Lemma pm_config_forwards_properties_witness :
  smc_calls SUSPEND_MODE_CONFIG
    (snd (pm_config_init gpio_below_512 board_two_gpios)) = [(5, 0)]
  /\ smc_calls WKUP_SOURCE_CONFIG
       (snd (pm_config_init gpio_below_512 board_two_gpios)) = [(16, 0)]
  /\ smc_calls PWM_REGULATOR_CONFIG
       (snd (pm_config_init gpio_below_512 board_two_gpios)) = []
  /\ smc_calls SUSPEND_DEBUG_ENABLE
       (snd (pm_config_init gpio_below_512 board_two_gpios)) = []
  /\ smc_calls APIOS_SUSPEND_CONFIG
       (snd (pm_config_init gpio_below_512 board_two_gpios)) = [].
Proof.
  exact (pm_config_forwards_properties gpio_below_512 board_two_gpios
           eq_refl eq_refl).
Defined.
